(** * Verification of show_me_server.py (Catinci "Show Me" feature)

    Shallow embedding of the helper functions and of the [/show_me]
    endpoint of [show_me_server.py].

    String model: a Python [str] whose code points are all below 256 is
    represented as a Rocq [string], one [ascii] per code point (Latin-1
    range of Unicode).  [str.lower], [str.isspace] and the regex class
    [\w] are written out for that range, as CPython's Unicode tables
    define them. *)

From Stdlib Require Import Ascii String.
From stdpp Require Import base gmap strings list.

Local Open Scope string_scope.

(* ------------------------------------------------------------------ *)
(** ** Characters *)

Definition code (c : ascii) : nat := nat_of_ascii c.

Definition in_range (lo hi : nat) (c : ascii) : bool :=
  Nat.leb lo (code c) && Nat.leb (code c) hi.

(** [str.isspace] on one code point below 256: TAB..CR (9-13),
    FS..US (28-31), SPACE (32), NEL (0x85) and NBSP (0xA0).  The regex
    class [\s] of a [str] pattern is the same set. *)
Definition py_isspace (c : ascii) : bool :=
  in_range 9 13 c || in_range 28 32 c || Nat.eqb (code c) 133
  || Nat.eqb (code c) 160.

(** Regex class [\w] on one code point below 256 ([str.isalnum] or ['_']). *)
Definition py_isword (c : ascii) : bool :=
  in_range 48 57 c || in_range 65 90 c || in_range 97 122 c
  || Nat.eqb (code c) 95
  || Nat.eqb (code c) 170 || in_range 178 179 c || Nat.eqb (code c) 181
  || in_range 185 186 c || in_range 188 190 c
  || in_range 192 214 c || in_range 216 246 c || in_range 248 255 c.

(** [str.lower] on one code point below 256: A-Z and the Latin-1
    capitals 0xC0-0xD6, 0xD8-0xDE move up by 32. *)
Definition lower_char (c : ascii) : ascii :=
  if in_range 65 90 c || in_range 192 214 c || in_range 216 222 c
  then ascii_of_nat (code c + 32) else c.

Definition newline : ascii := ascii_of_nat 10.

(* ------------------------------------------------------------------ *)
(** ** String primitives *)

(** [s.lower()] *)
Fixpoint lower (s : string) : string :=
  match s with
  | EmptyString => EmptyString
  | String c r => String (lower_char c) (lower r)
  end.

(** [s.lstrip(chars)] for a character predicate. *)
Fixpoint lstrip_by (p : ascii -> bool) (s : string) : string :=
  match s with
  | EmptyString => EmptyString
  | String c r => if p c then lstrip_by p r else s
  end.

(** [s.rstrip(chars)] for a character predicate. *)
Fixpoint rstrip_by (p : ascii -> bool) (s : string) : string :=
  match s with
  | EmptyString => EmptyString
  | String c r =>
      match rstrip_by p r with
      | EmptyString => if p c then EmptyString else String c EmptyString
      | r' => String c r'
      end
  end.

Definition strip_by (p : ascii -> bool) (s : string) : string :=
  rstrip_by p (lstrip_by p s).

(** [s.strip()] *)
Definition py_strip (s : string) : string := strip_by py_isspace s.

(** [s.strip(" ?.!,")] *)
Definition punct_set (c : ascii) : bool :=
  match c with
  | " "%char | "?"%char | "."%char | "!"%char | ","%char => true
  | _ => false
  end.

Definition strip_punct (s : string) : string := strip_by punct_set s.

(** [hay.startswith(p)] *)
Fixpoint prefixb (p hay : string) : bool :=
  match p, hay with
  | EmptyString, _ => true
  | String a p', String b hay' => Ascii.eqb a b && prefixb p' hay'
  | String _ _, EmptyString => false
  end.

(** [needle in hay] for strings (substring test). *)
Fixpoint contains (needle hay : string) : bool :=
  prefixb needle hay ||
  match hay with
  | EmptyString => false
  | String _ r => contains needle r
  end.

(** The text matched by [.+] / [.*] from here: up to the first newline. *)
Fixpoint take_line (s : string) : string :=
  match s with
  | EmptyString => EmptyString
  | String c r => if Ascii.eqb c newline then EmptyString else String c (take_line r)
  end.

(** Python truthiness of a string. *)
Definition truthy (s : string) : bool :=
  match s with EmptyString => false | _ => true end.

(** [s] with the literal prefix [p] removed, if [s] starts with [p]. *)
Fixpoint drop_prefix (p s : string) : option string :=
  match p, s with
  | EmptyString, _ => Some s
  | String a p', String b s' => if Ascii.eqb a b then drop_prefix p' s' else None
  | String _ _, EmptyString => None
  end.

(* ------------------------------------------------------------------ *)
(** ** Regular expressions of [extract_topic_from_utterance]

    The two patterns are [LIT (me|us)\s+(.+)] with [LIT] equal to
    ["can you show"] and ["show"].  [re.search] tries every start
    position from the left; at one position the greedy [\s+] backtracks
    until [(.+)] (any character but a newline, at least one) succeeds,
    and group 2 is what [(.+)] consumed. *)

(** [(.+)] at [r]: the rest of the line, if it is not empty. *)
Definition dot_plus (r : string) : option string :=
  match r with
  | EmptyString => None
  | String c _ => if Ascii.eqb c newline then None else Some (take_line r)
  end.

(** [\s*(.+)] at [r], greedy [\s*] with backtracking. *)
Fixpoint ws_star_dot_plus (r : string) : option string :=
  match r with
  | EmptyString => None
  | String c r' =>
      match (if py_isspace c then ws_star_dot_plus r' else None) with
      | Some g => Some g
      | None => dot_plus r
      end
  end.

(** [\s+(.+)] at [r]. *)
Definition ws_plus_dot_plus (r : string) : option string :=
  match r with
  | EmptyString => None
  | String c r' => if py_isspace c then ws_star_dot_plus r' else None
  end.

(** [LIT (me|us)\s+(.+)] anchored at the start of [s]: the alternation
    tries ["me"] and then ["us"]. *)
Definition topic_match_at (lit s : string) : option string :=
  match drop_prefix (lit +:+ " ") s with
  | None => None
  | Some r =>
      match (match drop_prefix "me" r with
             | Some r' => ws_plus_dot_plus r'
             | None => None end) with
      | Some g => Some g
      | None =>
          match drop_prefix "us" r with
          | Some r' => ws_plus_dot_plus r'
          | None => None
          end
      end
  end.

(** [re.search(LIT + r" (me|us)\s+(.+)", s).group(2)] *)
Fixpoint topic_search (lit s : string) : option string :=
  match topic_match_at lit s with
  | Some g => Some g
  | None =>
      match s with
      | EmptyString => None
      | String _ r => topic_search lit r
      end
  end.

(** [extract_topic_from_utterance] (lines 90-110). *)
Definition extract_topic_from_utterance (text : string) : option string :=
  if negb (truthy text) then None else
  let t := py_strip (lower text) in
  match topic_search "can you show" t with
  | Some g => Some (strip_punct g)
  | None =>
      match topic_search "show" t with
      | Some g => Some (strip_punct g)
      | None => None
      end
  end.

(* ------------------------------------------------------------------ *)
(** ** [is_show_request]

    Every pattern of [SHOW_TRIGGERS] is [\bPHRASE\b] where PHRASE is a
    literal, or the alternation of two literals for
    [\bsend (me|us) pictures\b]; each literal starts and ends with a word
    character, so [\b] before it means "at the start, or after a non-word
    character" and [\b] after it means "at the end, or before a non-word
    character".  A pattern is given by the list of its literals. *)

Definition SHOW_TRIGGERS : list (list string) :=
  [ ["show me"]; ["show us"]; ["can you show"]; ["let me see"];
    ["let us see"]; ["send me pictures"; "send us pictures"];
    ["what does that look like"] ].

Definition boundary_before (prev : option ascii) : bool :=
  match prev with None => true | Some c => negb (py_isword c) end.

Definition boundary_after (rest : string) : bool :=
  match rest with EmptyString => true | String c _ => negb (py_isword c) end.

(** [\bLIT\b] anchored at the position whose preceding character is [prev]. *)
Definition lit_at (prev : option ascii) (lit s : string) : bool :=
  boundary_before prev &&
  match drop_prefix lit s with
  | Some rest => boundary_after rest
  | None => false
  end.

(** [re.search(p, s)] for one trigger pattern, scanning from the left. *)
Fixpoint trigger_search (prev : option ascii) (alts : list string) (s : string) : bool :=
  existsb (fun lit => lit_at prev lit s) alts ||
  match s with
  | EmptyString => false
  | String c r => trigger_search (Some c) alts r
  end.

(** [is_show_request] (lines 82-87). *)
Definition is_show_request (text : string) : bool :=
  if negb (truthy text) then false else
  let t := lower text in
  existsb (fun alts => trigger_search None alts t) SHOW_TRIGGERS.

Example extract_whales :
  extract_topic_from_utterance "show me whale belly buttons!" = Some "whale belly buttons".
Proof. reflexivity. Qed.
Example extract_none : extract_topic_from_utterance "I like whales" = None.
Proof. reflexivity. Qed.
Example extract_can : extract_topic_from_utterance "Can you show us Stars in Iceland?" = Some "stars in iceland".
Proof. reflexivity. Qed.
Example show_req1 : is_show_request "Please SHOW me!" = true.
Proof. reflexivity. Qed.
Example show_req2 : is_show_request "show men" = false.
Proof. reflexivity. Qed.
Example show_req3 : is_show_request "showme" = false.
Proof. reflexivity. Qed.

(* ------------------------------------------------------------------ *)
(** ** Links: the [urlencode] call with the empty key, minus its
    leading ["="], is [quote_plus(query)]

    [quote_plus] encodes the string in UTF-8, keeps ASCII letters,
    digits and ["_.-~"], turns a space into ["+"] and every other byte
    into ["%XX"] (upper-case hex). *)

Definition hex_digit (n : nat) : ascii :=
  if Nat.ltb n 10 then ascii_of_nat (48 + n) else ascii_of_nat (55 + n).

Definition pct_byte (b : nat) : string :=
  String "%" (String (hex_digit (b / 16)) (String (hex_digit (b mod 16)) EmptyString)).

(** UTF-8 bytes of one code point below 256. *)
Definition utf8_bytes (c : ascii) : list nat :=
  if Nat.ltb (code c) 128 then [code c]
  else [192 + code c / 64; 128 + code c mod 64].

Definition always_safe (c : ascii) : bool :=
  in_range 48 57 c || in_range 65 90 c || in_range 97 122 c ||
  match c with "_"%char | "."%char | "-"%char | "~"%char => true | _ => false end.

Definition quote_plus_char (c : ascii) : string :=
  if always_safe c then String c EmptyString
  else if Ascii.eqb c " "%char then "+"
  else foldr (fun b acc => pct_byte b +:+ acc) EmptyString (utf8_bytes c).

Fixpoint quote_plus (s : string) : string :=
  match s with
  | EmptyString => EmptyString
  | String c r => quote_plus_char c +:+ quote_plus r
  end.

Definition google_images_prefix : string := "https://www.google.com/search?tbm=isch&q=".
Definition youtube_prefix : string := "https://www.youtube.com/results?search_query=".

(** [google_images_url] (lines 113-114). *)
Definition google_images_url (query : string) : string :=
  google_images_prefix +:+ quote_plus query.

(** [youtube_url] (lines 117-118). *)
Definition youtube_url (query : string) : string :=
  youtube_prefix +:+ quote_plus query.

(* ------------------------------------------------------------------ *)
(** ** Kid-friendly query markers *)

(** [ensure_kid_friendly_image_query] (lines 121-132); the argument is
    [query or] the empty string. *)
Definition ensure_kid_friendly_image_query (query : string) : string :=
  let q := py_strip query in
  if negb (truthy q) then "kid friendly images for kids" else
  let low := lower q in
  if negb (contains "kid friendly" low) && negb (contains "for kids" low)
  then "kid friendly " +:+ q else q.

(** [ensure_kid_friendly_video_query] (lines 135-146). *)
Definition ensure_kid_friendly_video_query (query : string) : string :=
  let q := py_strip query in
  if negb (truthy q) then "fun educational videos for kids" else
  let low := lower q in
  if negb (contains "for kids" low) && negb (contains "kid friendly" low)
  then q +:+ " for kids" else q.

(* ------------------------------------------------------------------ *)
(** ** Session store and the [/show_me] endpoint *)

(** One value of [SESSIONS] as [/answer] writes it (lines 276-282); the
    [updated_at] timestamp is not read by [/show_me] and is left out. *)
Record session := mk_session {
  current_topic : string;
  image_query : string;
  video_query : string;
  last_question : string
}.

(** How the call [send_sms(parent_phone, sms)] ends: it returns (Twilio
    accepted the message, or Twilio is not configured and the message is
    printed), or it raises (the Twilio client fails). *)
Inductive sms_outcome := SmsReturns | SmsRaises.

(** The JSON object returned to the caller. *)
Record response := mk_response {
  spoken : string;
  image_url : option string;
  video_url : option string
}.

(** How the request handler ends: with a response, or with an exception
    propagating out of [show_me]. *)
Inductive outcome := Returned (r : response) | Raised.

(** [d.get(key) or default] on the optional session dictionary. *)
Definition get_or (s : option session) (field : session -> string) (default : string) : string :=
  match s with
  | Some v => if truthy (field v) then field v else default
  | None => default
  end.

Definition neutral_reply : response :=
  mk_response "If you'd like pictures or videos, just say 'show us'!" None None.

Definition fallback_topic : string := "what we were talking about".

Definition nl : string := String newline EmptyString.

(** The star emoji U+1F31F that ends the SMS, as its UTF-8 bytes; it lies
    outside the Latin-1 string model and is only ever output. *)
Definition star_emoji : string :=
  String (ascii_of_nat 240) (String (ascii_of_nat 159)
    (String (ascii_of_nat 140) (String (ascii_of_nat 159) EmptyString))).

Definition sms_body (topic image_url video_url : string) : string :=
  "Here are kid-friendly pictures and videos about " +:+ topic +:+ "!" +:+ nl
  +:+ "Images: " +:+ image_url +:+ nl +:+ nl
  +:+ "Videos: " +:+ video_url +:+ nl +:+ nl
  +:+ "- Catinci AI " +:+ star_emoji.

Definition spoken_confirmation (topic : string) : string :=
  "Sure! I found kid-friendly pictures and videos about " +:+ topic
  +:+ ". I sent them to your grown-up!".

(** [show_me] (lines 300-360).  Inputs: the session store, [user_id],
    the raw ["text"] and ["parent_phone"] values (a missing one as the empty string), and
    how [send_sms] ends.  Output: the session store afterwards, the
    [send_sms] calls made as (destination, body), and the outcome.  The
    unused [emoji] variable (line 340) and the prints are left out. *)
Definition show_me (sessions : gmap string session) (user_id text_in parent_phone_in : string)
    (sms : sms_outcome) : gmap string session * list (string * string) * outcome :=
  let text := py_strip text_in in
  let parent_phone := py_strip parent_phone_in in
  if negb (is_show_request text) then (sessions, [], Returned neutral_reply) else
  let sess := sessions !! user_id in
  let utter_topic := extract_topic_from_utterance text in
  let '(topic, image_q, video_q) :=
    match utter_topic with
    | Some t =>
        if truthy t then
          (t, ensure_kid_friendly_image_query t,
           ensure_kid_friendly_video_query (t +:+ " videos"))
        else
          let topic := get_or sess current_topic fallback_topic in
          (topic, ensure_kid_friendly_image_query (get_or sess image_query topic),
           ensure_kid_friendly_video_query (get_or sess video_query (topic +:+ " videos")))
    | None =>
        let topic := get_or sess current_topic fallback_topic in
        (topic, ensure_kid_friendly_image_query (get_or sess image_query topic),
         ensure_kid_friendly_video_query (get_or sess video_query (topic +:+ " videos")))
    end in
  let iu := google_images_url image_q in
  let vu := youtube_url video_q in
  let reply := mk_response (spoken_confirmation topic) (Some iu) (Some vu) in
  if truthy parent_phone then
    let calls := [(parent_phone, sms_body topic iu vu)] in
    match sms with
    | SmsReturns => (sessions, calls, Returned reply)
    | SmsRaises => (sessions, calls, Raised)
    end
  else (sessions, [], Returned reply).

Example url_ex : google_images_url "whale belly buttons & more" =
  "https://www.google.com/search?tbm=isch&q=whale+belly+buttons+%26+more".
Proof. reflexivity. Qed.
Example url_ex2 : quote_plus (String (ascii_of_nat 233) EmptyString) = "%C3%A9".
Proof. reflexivity. Qed.
Example img_ex : ensure_kid_friendly_image_query " sharks " = "kid friendly sharks".
Proof. reflexivity. Qed.
Example vid_ex : ensure_kid_friendly_video_query "Sharks For Kids" = "Sharks For Kids".
Proof. reflexivity. Qed.

(* ------------------------------------------------------------------ *)
(** ** Topic sanitizer *)

(** Modelled from the spec: the Topic Sanitizer [sanitize(topic)] (spec
    section 4.3) is not part of [show_me_server.py].  The topic is split
    into whitespace-delimited tokens ([str.split()]), every token whose
    lower-cased form contains a denylisted substring is dropped, the
    survivors are joined with single spaces, and an empty result becomes
    the fixed fallback.  The denylist is a parameter: the spec only gives
    examples of its entries. *)

(** [s.split(c)] for every whitespace character [c] at once: the pieces
    between whitespace characters, empty ones included. *)
Fixpoint split_ws (s : string) : list string :=
  match s with
  | EmptyString => [EmptyString]
  | String c r =>
      if py_isspace c then EmptyString :: split_ws r
      else match split_ws r with
           | h :: t => String c h :: t
           | [] => [String c EmptyString]
           end
  end.

(** [s.split()]: the non-empty pieces. *)
Definition py_split (s : string) : list string := List.filter truthy (split_ws s).

(** [" ".join(ws)] *)
Fixpoint join_space (ws : list string) : string :=
  match ws with
  | [] => EmptyString
  | [w] => w
  | w :: rest => w +:+ String " " (join_space rest)
  end.

Definition sanitize_fallback : string := "science facts for kids".

(** The denylist entries the spec names. *)
Definition DENYLIST_EXAMPLE : list string :=
  ["blood"; "gore"; "surgery"; "corpse"; "crime scene"].

Definition blocked (denylist : list string) (tok : string) : bool :=
  existsb (fun d => contains d (lower tok)) denylist.

Definition sanitize (denylist : list string) (topic : string) : string :=
  let kept := List.filter (fun tok => negb (blocked denylist tok)) (py_split topic) in
  match kept with
  | [] => sanitize_fallback
  | _ => join_space kept
  end.

Example sanitize_ex1 :
  sanitize DENYLIST_EXAMPLE "  Bloody   volcano  surgery pictures " = "volcano pictures".
Proof. reflexivity. Qed.
Example sanitize_ex2 : sanitize DENYLIST_EXAMPLE "gore" = sanitize_fallback.
Proof. reflexivity. Qed.

Fixpoint str_forall (p : ascii -> bool) (s : string) : bool :=
  match s with
  | EmptyString => true
  | String c r => p c && str_forall p r
  end.

Definition no_ws (w : string) : bool := str_forall (fun c => negb (py_isspace c)) w.

Definition prepend (w : string) (l : list string) : list string :=
  match l with
  | h :: t => (w +:+ h) :: t
  | [] => [w]
  end.

Lemma append_empty_r (s : string) : s +:+ EmptyString = s.
Proof.
  induction s as [|c s IH]; [done|].
  change (String c (s +:+ EmptyString) = String c s). by rewrite IH.
Qed.

Lemma split_ws_nonempty (s : string) : split_ws s <> [].
Proof.
  destruct s as [|c r]; cbn [split_ws]; [done|].
  destruct (py_isspace c); [done|]. by destruct (split_ws r).
Qed.

Lemma split_ws_app (w s : string) :
  no_ws w = true -> split_ws (w +:+ s) = prepend w (split_ws s).
Proof.
  induction w as [|c w IH]; intros Hw.
  - destruct (split_ws s) eqn:E; [by destruct (split_ws_nonempty s)|done].
  - unfold no_ws in Hw. cbn [str_forall] in Hw.
    apply andb_prop in Hw as [Hc Hw]. apply negb_true_iff in Hc.
    change (split_ws (String c (w +:+ s)) = prepend (String c w) (split_ws s)).
    cbn [split_ws]. rewrite Hc, IH by done.
    destruct (split_ws s); done.
Qed.

Lemma split_ws_no_ws (s : string) : Forall (fun w => no_ws w = true) (split_ws s).
Proof.
  induction s as [|c r IH]; cbn [split_ws]; [by constructor|].
  destruct (py_isspace c) eqn:Hc; [by constructor|].
  destruct (split_ws r) as [|h t] eqn:E.
  - constructor; [unfold no_ws; cbn [str_forall]; by rewrite Hc|constructor].
  - inversion IH; subst. constructor; [unfold no_ws in *; cbn [str_forall]; by rewrite Hc|done].
Qed.

Lemma py_split_tokens (s : string) :
  Forall (fun w => truthy w = true /\ no_ws w = true) (py_split s).
Proof.
  unfold py_split. pose proof (split_ws_no_ws s) as H.
  induction H as [|w l Hw Hl IH]; simpl; [constructor|].
  destruct (truthy w) eqn:Ht; [constructor; auto|auto].
Qed.

Lemma py_split_join (ws : list string) :
  Forall (fun w => truthy w = true /\ no_ws w = true) ws -> py_split (join_space ws) = ws.
Proof.
  induction ws as [|w ws IH]; intros H; [done|].
  inversion H as [|? ? [Ht Hn] Hrest]; subst.
  destruct ws as [|w2 ws2].
  - unfold py_split. simpl join_space.
    rewrite <- (append_empty_r w), split_ws_app by done. simpl.
    rewrite append_empty_r, Ht. done.
  - change (join_space (w :: w2 :: ws2)) with (w +:+ String " " (join_space (w2 :: ws2))).
    unfold py_split in *. rewrite split_ws_app by done. simpl.
    rewrite append_empty_r, Ht. f_equal. by apply IH.
Qed.

Lemma filter_forallb {A} (p : A -> bool) (l : list A) :
  forallb p l = true -> List.filter p l = l.
Proof.
  induction l as [|x l IH]; simpl; [done|].
  intros H. apply andb_prop in H as [Hx Hl]. rewrite Hx, IH; done.
Qed.

Lemma filter_idem {A} (p : A -> bool) (l : list A) :
  List.filter p (List.filter p l) = List.filter p l.
Proof.
  induction l as [|x l IH]; [done|]. cbn [List.filter].
  destruct (p x) eqn:Hx; [|done]. cbn [List.filter]. by rewrite Hx, IH.
Qed.

Lemma Forall_filter_sub {A} (P : A -> Prop) (p : A -> bool) (l : list A) :
  Forall P l -> Forall P (List.filter p l).
Proof.
  induction 1 as [|x l Hx Hl IH]; cbn [List.filter]; [constructor|].
  destruct (p x); [by constructor|done].
Qed.

Lemma Forall_filter_true {A} (p : A -> bool) (l : list A) :
  Forall (fun x => p x = true) (List.filter p l).
Proof.
  induction l as [|x l IH]; cbn [List.filter]; [constructor|].
  destruct (p x) eqn:Hx; [by constructor|done].
Qed.

Lemma py_split_fallback :
  py_split sanitize_fallback = ["science"; "facts"; "for"; "kids"].
Proof. reflexivity. Qed.

(** C3: with any denylist that leaves the fallback literal's own tokens
    alone, [sanitize] is idempotent, no token of its result is
    denylisted, and a topic whose tokens are all dropped (the empty topic
    among them) gives exactly the fallback literal. *)
Theorem sanitize_idempotent (denylist : list string) :
  forallb (fun tok => negb (blocked denylist tok)) (py_split sanitize_fallback) = true ->
  forall x : string,
    sanitize denylist (sanitize denylist x) = sanitize denylist x /\
    Forall (fun tok => blocked denylist tok = false) (py_split (sanitize denylist x)) /\
    (List.filter (fun tok => negb (blocked denylist tok)) (py_split x) = [] ->
     sanitize denylist x = sanitize_fallback).
Proof.
  intros Hfb x. unfold sanitize at 2 3 4 5.
  set (p := fun tok => negb (blocked denylist tok)).
  destruct (List.filter p (py_split x)) as [|k ks] eqn:Ek.
  - split; [|split; [|done]].
    + unfold sanitize. fold p. by rewrite (filter_forallb p _ Hfb), py_split_fallback.
    + rewrite py_split_fallback. rewrite py_split_fallback in Hfb.
      cbn [forallb] in Hfb. repeat (apply andb_prop in Hfb as [? Hfb]).
      repeat constructor; by apply negb_true_iff.
  - assert (Hk : Forall (fun w => truthy w = true /\ no_ws w = true) (k :: ks)).
    { rewrite <- Ek. apply Forall_filter_sub, py_split_tokens. }
    rewrite (py_split_join _ Hk).
    split; [|split; [|done]].
    + unfold sanitize. fold p. rewrite (py_split_join _ Hk), <- Ek, filter_idem, Ek. done.
    + rewrite <- Ek. eapply Forall_impl; [apply (Forall_filter_true p)|].
      intros tok Hp. unfold p in Hp. by apply negb_true_iff in Hp.
Qed.

Lemma sanitize_idempotent_witness :
  forallb (fun tok => negb (blocked DENYLIST_EXAMPLE tok)) (py_split sanitize_fallback) = true /\
  sanitize DENYLIST_EXAMPLE (sanitize DENYLIST_EXAMPLE "open heart surgery pictures")
  = sanitize DENYLIST_EXAMPLE "open heart surgery pictures".
Proof.
  split; [reflexivity|].
  apply (sanitize_idempotent DENYLIST_EXAMPLE); reflexivity.
Defined.

(* ------------------------------------------------------------------ *)
(** ** Substring facts *)

Lemma prefix_app (p s : string) : prefixb p (p +:+ s) = true.
Proof.
  induction p as [|a p IH]; [by destruct s|].
  change (prefixb (String a p) (String a (p +:+ s)) = true).
  cbn [prefixb]. by rewrite Ascii.eqb_refl, IH.
Qed.

Lemma prefix_app_r (p s t : string) :
  prefixb p s = true -> prefixb p (s +:+ t) = true.
Proof.
  revert s. induction p as [|a p IH]; intros s H; [by destruct (s +:+ t)|].
  destruct s as [|b s]; [done|].
  change (prefixb (String a p) (String b (s +:+ t)) = true).
  cbn [prefixb] in *. apply andb_prop in H as [H1 H2]. by rewrite H1, IH.
Qed.

Lemma contains_prefix (p s : string) : contains p (p +:+ s) = true.
Proof.
  pose proof (prefix_app p s) as H. revert H.
  destruct (p +:+ s); cbn [contains]; intros ->; done.
Qed.

Lemma contains_app_l (p s t : string) :
  contains p s = true -> contains p (s +:+ t) = true.
Proof.
  induction s as [|c s IH]; intros H.
  - cbn [contains] in H. apply orb_true_iff in H as [H|H]; [|done].
    destruct p; [by destruct t|discriminate].
  - change (contains p (String c (s +:+ t)) = true).
    cbn [contains] in *. apply orb_true_iff in H as [H|H]; apply orb_true_iff.
    + left. change (prefixb p (String c s +:+ t) = true). by apply prefix_app_r.
    + right. by apply IH.
Qed.

Lemma contains_app_r (p s t : string) :
  contains p t = true -> contains p (s +:+ t) = true.
Proof.
  induction s as [|c s IH]; intros H; [done|].
  change (contains p (String c (s +:+ t)) = true).
  cbn [contains]. apply orb_true_iff. right. by apply IH.
Qed.

Lemma lower_app (a b : string) : lower (a +:+ b) = lower a +:+ lower b.
Proof.
  induction a as [|c a IH]; [done|].
  change (String (lower_char c) (lower (a +:+ b)) = String (lower_char c) (lower a +:+ lower b)).
  by rewrite IH.
Qed.

(** Case-insensitive presence of a kid-safety marker. *)
Definition has_kid_marker (q : string) : bool :=
  contains "for kids" (lower q) || contains "kid friendly" (lower q).

(** C6: whatever topic the two query builders receive (in [show_me] the
    topic and the topic followed by [" videos"]), the image query and the
    video query each contain "for kids" or "kid friendly", ignoring case. *)
Theorem kid_marker_always_present (topic : string) :
  has_kid_marker (ensure_kid_friendly_image_query topic) = true /\
  has_kid_marker (ensure_kid_friendly_video_query topic) = true.
Proof.
  unfold ensure_kid_friendly_image_query, ensure_kid_friendly_video_query.
  set (q := py_strip topic).
  destruct (truthy q); cbn [negb]; [|split; reflexivity].
  unfold has_kid_marker. split.
  - destruct (contains "kid friendly" (lower q)) eqn:E1;
      destruct (contains "for kids" (lower q)) eqn:E2; cbn [negb andb];
      rewrite ?E1, ?E2, ?orb_true_r; try done.
    all: rewrite lower_app; apply orb_true_iff; right;
      change ("kid friendly " +:+ lower q) with ("kid friendly" +:+ (" " +:+ lower q));
      apply contains_prefix.
  - destruct (contains "kid friendly" (lower q)) eqn:E1;
      destruct (contains "for kids" (lower q)) eqn:E2; cbn [negb andb];
      rewrite ?E1, ?E2, ?orb_true_r; try done.
    all: rewrite lower_app; apply orb_true_iff; left;
      apply contains_app_r; change (lower " for kids") with (" " +:+ ("for kids" +:+ EmptyString));
      apply contains_app_r, contains_prefix.
Qed.

(* ------------------------------------------------------------------ *)
(** ** The [/show_me] endpoint *)

Definition no_sessions : gmap string session := ∅.

Lemma show_me_not_request (sessions : gmap string session) (u text phone : string) (sms : sms_outcome) :
  is_show_request (py_strip text) = false ->
  show_me sessions u text phone sms = (sessions, [], Returned neutral_reply).
Proof. intros H. unfold show_me. by rewrite H. Qed.

(** C4 (as the code has it): an utterance that is not a show-request
    leaves the whole session store unchanged (its own identifier's entry
    included: nothing is written), makes no [send_sms] call, and gets the
    fixed neutral reply without links. *)
Theorem show_me_statement_frame (sessions : gmap string session) (u text phone : string)
    (sms : sms_outcome) :
  is_show_request (py_strip text) = false ->
  show_me sessions u text phone sms = (sessions, [], Returned neutral_reply) /\
  image_url neutral_reply = None /\ video_url neutral_reply = None.
Proof. intros H. split; [by apply show_me_not_request | done]. Qed.

Lemma show_me_statement_frame_witness :
  is_show_request (py_strip "Why do volcanoes erupt?") = false /\
  show_me no_sessions "+15551234567" "Why do volcanoes erupt?" EmptyString SmsReturns
  = (no_sessions, [], Returned neutral_reply).
Proof.
  split; [reflexivity|].
  apply (show_me_statement_frame no_sessions "+15551234567" "Why do volcanoes erupt?" EmptyString SmsReturns).
  reflexivity.
Defined.

(** C4 counterexample: the statement "Why do volcanoes erupt?" sent to
    [/show_me] is not stored as the identifier's topic. *)
Lemma show_me_statement_not_stored :
  (fst (fst (show_me no_sessions "+15551234567" "Why do volcanoes erupt?" EmptyString SmsReturns)))
    !! "+15551234567" = None.
Proof. reflexivity. Qed.

Definition fallback_image_query : string := "kid friendly what we were talking about".
Definition fallback_video_query : string := "what we were talking about videos for kids".

Definition fallback_reply : response :=
  mk_response (spoken_confirmation fallback_topic)
    (Some (google_images_url fallback_image_query))
    (Some (youtube_url fallback_video_query)).

(** C5 (as the code has it): for a show-request whose utterance yields
    no explicit topic (none, or one that is empty once trimmed), from an
    identifier without a stored session, [/show_me] does not ask for
    clarification: it uses the fallback topic "what we were talking
    about", builds both links from it, leaves the store unchanged, and
    sends the SMS whenever a parent phone is given. *)
Theorem show_us_fresh_identifier (sessions : gmap string session) (u text phone : string)
    (sms : sms_outcome) :
  sessions !! u = None ->
  is_show_request (py_strip text) = true ->
  (forall g, extract_topic_from_utterance (py_strip text) = Some g -> truthy g = false) ->
  show_me sessions u text phone sms =
  if truthy (py_strip phone) then
    (sessions,
     [(py_strip phone, sms_body fallback_topic (google_images_url fallback_image_query)
                                  (youtube_url fallback_video_query))],
     match sms with SmsReturns => Returned fallback_reply | SmsRaises => Raised end)
  else (sessions, [], Returned fallback_reply).
Proof.
  intros H Hs He. unfold show_me. rewrite Hs. cbn [negb].
  destruct (extract_topic_from_utterance (py_strip text)) as [t|] eqn:E.
  - rewrite (He t eq_refl). rewrite H. cbn [get_or].
    replace (ensure_kid_friendly_image_query fallback_topic) with fallback_image_query
      by reflexivity.
    replace (ensure_kid_friendly_video_query (fallback_topic +:+ " videos"))
      with fallback_video_query by reflexivity.
    destruct (truthy (py_strip phone)); [destruct sms|]; reflexivity.
  - rewrite H. cbn [get_or].
    replace (ensure_kid_friendly_image_query fallback_topic) with fallback_image_query
      by reflexivity.
    replace (ensure_kid_friendly_video_query (fallback_topic +:+ " videos"))
      with fallback_video_query by reflexivity.
    destruct (truthy (py_strip phone)); [destruct sms|]; reflexivity.
Qed.

Lemma show_us_fresh_identifier_witness :
  no_sessions !! "kid1" = None /\
  show_me no_sessions "kid1" "Show me ...!" EmptyString SmsReturns
    = (no_sessions, [], Returned fallback_reply).
Proof.
  split; [reflexivity|].
  rewrite (show_us_fresh_identifier no_sessions "kid1" "Show me ...!" EmptyString SmsReturns).
  - reflexivity.
  - reflexivity.
  - reflexivity.
  - intros g Hg. vm_compute in Hg. inversion Hg. reflexivity.
Defined.

(** C5 counterexample: ["show us"] from a fresh identifier with a parent
    phone gets links and triggers one [send_sms] call. *)
Lemma show_us_fresh_gets_links :
  length (snd (fst (show_me no_sessions "kid1" "show us" "+15551234567" SmsReturns))) = 1 /\
  snd (show_me no_sessions "kid1" "show us" "+15551234567" SmsReturns) = Returned fallback_reply /\
  image_url fallback_reply <> None.
Proof. split; [reflexivity|split; [reflexivity|discriminate]]. Qed.

(** The resolution order of the spec, stated on its own: the topic
    extracted from the utterance when there is a non-empty one, else the
    non-empty [current_topic] stored for the identifier, else the fixed
    fallback topic. *)
Definition priority_topic (sessions : gmap string session) (u text : string) : string :=
  let stored :=
    match sessions !! u with
    | Some v => if truthy (current_topic v) then current_topic v else fallback_topic
    | None => fallback_topic
    end in
  match extract_topic_from_utterance text with
  | Some t => if truthy t then t else stored
  | None => stored
  end.

(** C7: for a show-request, the topic echoed in the spoken confirmation
    (when the handler returns) and in the SMS body (when one is sent) is
    the explicit topic of the utterance, else the stored session topic,
    else "what we were talking about". *)
Theorem show_me_topic_priority (sessions : gmap string session) (u text phone : string)
    (sms : sms_outcome) :
  is_show_request (py_strip text) = true ->
  (forall r, snd (show_me sessions u text phone sms) = Returned r ->
     spoken r = spoken_confirmation (priority_topic sessions u (py_strip text))) /\
  (truthy (py_strip phone) = true ->
   exists iu vu, snd (fst (show_me sessions u text phone sms))
     = [(py_strip phone, sms_body (priority_topic sessions u (py_strip text)) iu vu)]).
Proof.
  intros H. unfold show_me, priority_topic. rewrite H. cbn [negb].
  destruct (sessions !! u) as [v|]; cbn [get_or];
  destruct (extract_topic_from_utterance (py_strip text)) as [t|];
  try destruct (truthy t); try destruct (truthy (current_topic v));
  (split; [intros r Hr; destruct (truthy (py_strip phone)); [destruct sms|];
           cbn in Hr; inversion Hr; reflexivity
          |intros Hp; rewrite Hp; destruct sms; do 2 eexists; reflexivity]).
Qed.

Lemma show_me_topic_priority_witness :
  is_show_request (py_strip "show me!") = true /\
  (forall r, snd (show_me (<["kid1" := mk_session "volcanoes" EmptyString EmptyString EmptyString]> no_sessions)
                    "kid1" "show me!" EmptyString SmsReturns) = Returned r ->
     spoken r = spoken_confirmation "volcanoes").
Proof.
  split; [reflexivity|]. intros r Hr.
  rewrite (proj1 (show_me_topic_priority (<["kid1" := mk_session "volcanoes" EmptyString EmptyString EmptyString]> no_sessions)
           "kid1" "show me!" EmptyString SmsReturns eq_refl) r Hr).
  reflexivity.
Defined.

(** A show-request with a parent phone: when [send_sms] raises, the
    exception leaves [show_me], and no response is returned. *)
Lemma show_me_sms_raise_propagates (sessions : gmap string session) (u text phone : string) :
  is_show_request (py_strip text) = true -> truthy (py_strip phone) = true ->
  snd (show_me sessions u text phone SmsRaises) = Raised.
Proof.
  intros H Hp. unfold show_me. rewrite H, Hp. cbn [negb].
  destruct (extract_topic_from_utterance (py_strip text)) as [t|];
    try destruct (truthy t); reflexivity.
Qed.

(** C1 (failing input): "show me sharks" with parent phone
    "+15551234567": when [send_sms] returns, the caller gets the
    confirmation and both links; when it raises, no response is
    returned at all. *)
Theorem show_me_sms_failure_aborts :
  snd (show_me no_sessions "kid1" "show me sharks" "+15551234567" SmsReturns)
    = Returned (mk_response (spoken_confirmation "sharks")
                  (Some (google_images_url "kid friendly sharks"))
                  (Some (youtube_url "sharks videos for kids"))) /\
  snd (show_me no_sessions "kid1" "show me sharks" "+15551234567" SmsRaises) = Raised.
Proof.
  split; [reflexivity|].
  apply show_me_sms_raise_propagates; reflexivity.
Qed.

(* ------------------------------------------------------------------ *)
(** ** Query parameters of the image link *)

(** [s.split(sep)] *)
Fixpoint split_on (sep : ascii) (s : string) : list string :=
  match s with
  | EmptyString => [EmptyString]
  | String c r =>
      if Ascii.eqb c sep then EmptyString :: split_on sep r
      else match split_on sep r with
           | h :: t => String c h :: t
           | [] => [String c EmptyString]
           end
  end.

(** The text after the first [c], if any. *)
Fixpoint after_char (c : ascii) (s : string) : option string :=
  match s with
  | EmptyString => None
  | String d r => if Ascii.eqb d c then Some r else after_char c r
  end.

(** A [key=value] field split at its first ["="]. *)
Fixpoint split_kv (s : string) : string * string :=
  match s with
  | EmptyString => (EmptyString, EmptyString)
  | String c r =>
      if Ascii.eqb c "="%char then (EmptyString, r)
      else let '(k, v) := split_kv r in (String c k, v)
  end.

(** The [key=value] pairs of a URL's query string, in order (values
    left percent-encoded). *)
Definition query_params (url : string) : list (string * string) :=
  match after_char "?"%char url with
  | Some q => map split_kv (split_on "&"%char q)
  | None => []
  end.

Definition not_amp_eq (c : ascii) : bool :=
  negb (Ascii.eqb c "&"%char) && negb (Ascii.eqb c "="%char).

Lemma str_forall_app (p : ascii -> bool) (a b : string) :
  str_forall p a = true -> str_forall p b = true -> str_forall p (a +:+ b) = true.
Proof.
  induction a as [|c a IH]; intros Ha Hb; [done|].
  change (p c && str_forall p (a +:+ b) = true).
  cbn [str_forall] in Ha. apply andb_prop in Ha as [Hc Ha]. by rewrite Hc, IH.
Qed.

Lemma quote_plus_char_no_sep (c : ascii) : str_forall not_amp_eq (quote_plus_char c) = true.
Proof. destruct c as [[] [] [] [] [] [] [] []]; vm_compute; reflexivity. Qed.

Lemma quote_plus_no_sep (s : string) : str_forall not_amp_eq (quote_plus s) = true.
Proof.
  induction s as [|c s IH]; [done|].
  apply str_forall_app; [apply quote_plus_char_no_sep|exact IH].
Qed.

Lemma split_on_nonempty (sep : ascii) (s : string) : split_on sep s <> [].
Proof.
  destruct s as [|c r]; cbn [split_on]; [done|].
  destruct (Ascii.eqb c sep); [done|]. by destruct (split_on sep r).
Qed.

Lemma split_on_app (sep : ascii) (w s : string) :
  str_forall (fun c => negb (Ascii.eqb c sep)) w = true ->
  split_on sep (w +:+ s) = prepend w (split_on sep s).
Proof.
  induction w as [|c w IH]; intros Hw.
  - destruct (split_on sep s) eqn:E; [by destruct (split_on_nonempty sep s)|done].
  - cbn [str_forall] in Hw. apply andb_prop in Hw as [Hc Hw]. apply negb_true_iff in Hc.
    change (split_on sep (String c (w +:+ s)) = prepend (String c w) (split_on sep s)).
    cbn [split_on]. rewrite Hc, IH by done.
    destruct (split_on sep s); done.
Qed.

Lemma str_forall_impl (p q : ascii -> bool) (s : string) :
  (forall c, p c = true -> q c = true) -> str_forall p s = true -> str_forall q s = true.
Proof.
  intros Hpq. induction s as [|c s IH]; [done|]. cbn [str_forall].
  intros H. apply andb_prop in H as [H1 H2]. by rewrite Hpq, IH.
Qed.

(** C2 (as the code has it): the image link carries exactly two query
    parameters, [tbm=isch] and [q=] followed by the percent-encoded
    query, whatever the query; there is no safe-search parameter. *)
Theorem google_images_url_params (query : string) :
  query_params (google_images_url query) = [("tbm", "isch"); ("q", quote_plus query)].
Proof.
  pose proof (quote_plus_no_sep query) as Hq.
  assert (Ha : str_forall (fun c => negb (Ascii.eqb c "&"%char)) (quote_plus query) = true).
  { revert Hq. apply str_forall_impl. intros c Hc. unfold not_amp_eq in Hc.
    by apply andb_prop in Hc as [Hc _]. }
  unfold query_params.
  change (after_char "?"%char (google_images_url query))
    with (Some ("tbm=isch" +:+ String "&" ("q=" +:+ quote_plus query))).
  cbv iota beta.
  rewrite (split_on_app "&"%char "tbm=isch") by reflexivity.
  cbn [split_on Ascii.eqb].
  rewrite (split_on_app "&"%char "q=") by reflexivity.
  rewrite <- (append_empty_r (quote_plus query)), (split_on_app "&"%char _ EmptyString Ha).
  reflexivity.
Qed.

(** C2 counterexample: the image link for "whales" has no safe-search
    parameter. *)
Lemma google_images_url_no_safe_search :
  query_params (google_images_url "whales") = [("tbm", "isch"); ("q", "whales")] /\
  existsb (fun kv => String.eqb (fst kv) "safe") (query_params (google_images_url "whales"))
  = false.
Proof. split; reflexivity. Qed.

(* ------------------------------------------------------------------ *)
(** ** Trigger phrases *)

(** The character before the position that follows [pre], when the text
    before [pre] ends with [prev]. *)
Fixpoint last_char (prev : option ascii) (pre : string) : option ascii :=
  match pre with
  | EmptyString => prev
  | String c r => last_char (Some c) r
  end.

Lemma drop_prefix_app (p s : string) : drop_prefix p (p +:+ s) = Some s.
Proof.
  induction p as [|a p IH]; [done|].
  change (drop_prefix (String a p) (String a (p +:+ s)) = Some s).
  cbn [drop_prefix]. by rewrite Ascii.eqb_refl.
Qed.

Lemma drop_prefix_some (p s r : string) : drop_prefix p s = Some r -> s = p +:+ r.
Proof.
  revert s. induction p as [|a p IH]; intros s H.
  - cbn [drop_prefix] in H. by inversion H.
  - destruct s as [|b s]; [discriminate|]. cbn [drop_prefix] in H.
    destruct (Ascii.eqb a b) eqn:E; [|discriminate].
    apply Ascii.eqb_eq in E. subst b. rewrite (IH s H). done.
Qed.

Lemma lit_at_spec (prev : option ascii) (lit s : string) :
  lit_at prev lit s = true <->
  boundary_before prev = true /\ exists post, s = lit +:+ post /\ boundary_after post = true.
Proof.
  unfold lit_at. split.
  - intros H. apply andb_prop in H as [H1 H2]. split; [done|].
    destruct (drop_prefix lit s) as [rest|] eqn:E; [|discriminate].
    exists rest. split; [by apply drop_prefix_some|done].
  - intros [H1 [post [-> H2]]]. by rewrite H1, drop_prefix_app.
Qed.

Lemma trigger_search_unfold (prev : option ascii) (alts : list string) (s : string) :
  trigger_search prev alts s =
  existsb (fun lit => lit_at prev lit s) alts ||
  match s with EmptyString => false | String c r => trigger_search (Some c) alts r end.
Proof. by destruct s. Qed.

Lemma trigger_search_iff (prev : option ascii) (alts : list string) (s : string) :
  trigger_search prev alts s = true <->
  exists pre lit post, In lit alts /\ s = pre +:+ lit +:+ post /\
    boundary_before (last_char prev pre) = true /\ boundary_after post = true.
Proof.
  split.
  - revert prev. induction s as [|c r IH]; intros prev H;
      rewrite trigger_search_unfold in H; apply orb_true_iff in H as [H|H].
    + apply existsb_exists in H as [lit [Hin Hl]]. apply lit_at_spec in Hl as [Hb [post [Hs Ha]]].
      by exists EmptyString, lit, post.
    + discriminate.
    + apply existsb_exists in H as [lit [Hin Hl]]. apply lit_at_spec in Hl as [Hb [post [Hs Ha]]].
      by exists EmptyString, lit, post.
    + destruct (IH (Some c) H) as [pre [lit [post [Hin [Hs [Hb Ha]]]]]].
      exists (String c pre), lit, post. rewrite Hs. done.
  - intros [pre [lit [post [Hin [Hs [Hb Ha]]]]]]. revert prev s Hs Hb.
    induction pre as [|c pre IH]; intros prev s Hs Hb;
      rewrite trigger_search_unfold; apply orb_true_iff.
    + left. apply existsb_exists. exists lit. split; [done|].
      apply lit_at_spec. split; [done|]. by exists post.
    + right. subst s. apply (IH (Some c)); done.
Qed.

Lemma show_triggers_nonempty (alts : list string) (lit : string) :
  In alts SHOW_TRIGGERS -> In lit alts -> truthy lit = true.
Proof. cbn. intros H1 H2. repeat (destruct H1 as [<-|H1]; [cbn in H2; intuition subst; done|]). done. Qed.

(** C9 (as the code has it): [is_show_request text] holds exactly when
    the lower-cased text contains one of the trigger phrases (show me,
    show us, can you show, let me see, let us see, send me pictures, send
    us pictures, what does that look like) with no word character
    (letter, digit or underscore) right before or right after it. *)
Theorem is_show_request_iff (text : string) :
  is_show_request text = true <->
  exists alts lit pre post, In alts SHOW_TRIGGERS /\ In lit alts /\
    lower text = pre +:+ lit +:+ post /\
    boundary_before (last_char None pre) = true /\ boundary_after post = true.
Proof.
  unfold is_show_request. destruct text as [|c r] eqn:Et.
  - cbn. split; [discriminate|].
    intros [alts [lit [pre [post [Ha [Hl [Hs _]]]]]]].
    pose proof (show_triggers_nonempty alts lit Ha Hl) as Hne.
    destruct pre; [|discriminate]. destruct lit; [discriminate|]. discriminate.
  - cbn [truthy negb]. split.
    + intros H. apply existsb_exists in H as [alts [Ha H]].
      apply trigger_search_iff in H as [pre [lit [post [Hl [Hs [Hb Hp]]]]]].
      by exists alts, lit, pre, post.
    + intros [alts [lit [pre [post [Ha [Hl [Hs [Hb Hp]]]]]]]].
      apply existsb_exists. exists alts. split; [done|].
      apply trigger_search_iff. by exists pre, lit, post.
Qed.

(** C9 counterexample: "show men" contains the trigger phrase "show me"
    as a substring, yet it is not a show-request. *)
Lemma show_men_not_request :
  contains "show me" "show men" = true /\ is_show_request "show men" = false.
Proof. split; reflexivity. Qed.

(* ------------------------------------------------------------------ *)
(** ** Topic extraction *)

Definition no_nl (g : string) : bool := str_forall (fun c => negb (Ascii.eqb c newline)) g.
Definition all_ws (ws : string) : bool := str_forall py_isspace ws.

(** The text after a [(.+)] match: empty or starting with a newline. *)
Definition line_end (post : string) : bool :=
  match post with EmptyString => true | String c _ => Ascii.eqb c newline end.

Lemma append_assoc_s (a b c : string) : (a +:+ b) +:+ c = a +:+ (b +:+ c).
Proof.
  induction a as [|x a IH]; [done|].
  change (String x ((a +:+ b) +:+ c) = String x (a +:+ (b +:+ c))). by rewrite IH.
Qed.

Lemma take_line_spec (s : string) :
  no_nl (take_line s) = true /\
  exists post, s = take_line s +:+ post /\ line_end post = true.
Proof.
  induction s as [|c s [IH1 [post [IH2 IH3]]]]; [split; [done|by exists EmptyString]|].
  cbn [take_line]. destruct (Ascii.eqb c newline) eqn:E.
  - split; [done|]. exists (String c s). split; [done|]. cbn. by rewrite E.
  - split; [unfold no_nl in *; cbn [str_forall]; by rewrite E, IH1|].
    exists post. split; [|done].
    change (String c s = String c (take_line s +:+ post)). by rewrite <- IH2.
Qed.

Lemma dot_plus_sound (r g : string) :
  dot_plus r = Some g ->
  truthy g = true /\ no_nl g = true /\ exists post, r = g +:+ post /\ line_end post = true.
Proof.
  unfold dot_plus. destruct r as [|c r']; [discriminate|].
  destruct (Ascii.eqb c newline) eqn:E; [discriminate|]. intros H. inversion H; subst g.
  destruct (take_line_spec (String c r')) as [H1 H2].
  cbn [take_line] in *. rewrite E in *. done.
Qed.

Lemma ws_star_dot_plus_sound (r g : string) :
  ws_star_dot_plus r = Some g ->
  exists ws rest, r = ws +:+ rest /\ all_ws ws = true /\ dot_plus rest = Some g.
Proof.
  induction r as [|c r IH]; [discriminate|]. cbn [ws_star_dot_plus].
  destruct (py_isspace c) eqn:Hc.
  - destruct (ws_star_dot_plus r) as [g'|] eqn:E.
    + intros H. inversion H; subst g'. destruct (IH eq_refl) as [ws [rest [-> [Hw Hd]]]].
      exists (String c ws), rest. split; [done|]. unfold all_ws in *. cbn [str_forall].
      by rewrite Hc, Hw.
    + intros H. by exists EmptyString, (String c r).
  - intros H. by exists EmptyString, (String c r).
Qed.

Lemma ws_star_dot_plus_complete (ws rest : string) :
  all_ws ws = true -> dot_plus rest <> None -> ws_star_dot_plus (ws +:+ rest) <> None.
Proof.
  induction ws as [|c ws IH]; intros Hw Hd.
  - destruct rest as [|d r]; [by exfalso; apply Hd|]. change (ws_star_dot_plus (String d r) <> None). cbn [ws_star_dot_plus].
    destruct (py_isspace d); [destruct (ws_star_dot_plus r)|]; done.
  - unfold all_ws in Hw. cbn [str_forall] in Hw. apply andb_prop in Hw as [Hc Hw].
    change (ws_star_dot_plus (String c (ws +:+ rest)) <> None). cbn [ws_star_dot_plus].
    rewrite Hc. destruct (ws_star_dot_plus (ws +:+ rest)) eqn:E; [done|].
    by destruct (IH Hw Hd).
Qed.

(** One match of [LIT (me|us)\s+(.+)] at the start of [s]. *)
Definition topic_decomp (lit s g : string) : Prop :=
  exists w ws post, (w = "me" \/ w = "us") /\
    s = lit +:+ " " +:+ w +:+ ws +:+ g +:+ post /\
    truthy ws = true /\ all_ws ws = true /\
    truthy g = true /\ no_nl g = true /\ line_end post = true.

Lemma topic_match_at_sound (lit s g : string) :
  topic_match_at lit s = Some g -> topic_decomp lit s g.
Proof.
  unfold topic_match_at.
  destruct (drop_prefix (lit +:+ " ") s) as [r|] eqn:E1; [|discriminate].
  apply drop_prefix_some in E1. rewrite append_assoc_s in E1.
  assert (Hw : forall w r', r = w +:+ r' -> (w = "me" \/ w = "us") ->
            ws_plus_dot_plus r' = Some g -> topic_decomp lit s g).
  { intros w r' -> Hwo H. unfold ws_plus_dot_plus in H.
    destruct r' as [|c r'']; [discriminate|].
    destruct (py_isspace c) eqn:Hc; [|discriminate].
    destruct (ws_star_dot_plus_sound _ _ H) as [ws [rest [-> [Hws Hd]]]].
    destruct (dot_plus_sound _ _ Hd) as [Hg1 [Hg2 [post [-> Hp]]]].
    exists w, (String c ws), post. split; [done|]. split.
    - rewrite E1. done.
    - unfold all_ws in *. cbn [str_forall truthy]. by rewrite Hc, Hws. }
  destruct (drop_prefix "me" r) as [r'|] eqn:E2.
  - destruct (ws_plus_dot_plus r') as [g'|] eqn:E3.
    + intros H. inversion H; subst g'. apply (Hw "me" r'); [by apply drop_prefix_some|by left|done].
    + destruct (drop_prefix "us" r) as [r''|] eqn:E4; [|discriminate].
      intros H. apply (Hw "us" r''); [by apply drop_prefix_some|by right|done].
  - destruct (drop_prefix "us" r) as [r''|] eqn:E4; [|discriminate].
    intros H. apply (Hw "us" r''); [by apply drop_prefix_some|by right|done].
Qed.

Lemma topic_search_sound (lit s g : string) :
  topic_search lit s = Some g -> exists pre s', s = pre +:+ s' /\ topic_match_at lit s' = Some g.
Proof.
  induction s as [|c s IH]; cbn [topic_search].
  - destruct (topic_match_at lit EmptyString) eqn:E; [|discriminate].
    intros H. inversion H; subst. by exists EmptyString, EmptyString.
  - destruct (topic_match_at lit (String c s)) eqn:E.
    + intros H. inversion H; subst. by exists EmptyString, (String c s).
    + intros H. destruct (IH H) as [pre [s' [-> Hm]]]. by exists (String c pre), s'.
Qed.

Lemma topic_search_here (lit s : string) :
  topic_match_at lit s <> None -> topic_search lit s <> None.
Proof.
  intros H. destruct s as [|c s]; cbn [topic_search];
    destruct (topic_match_at lit _); done.
Qed.

Lemma topic_search_complete (lit pre s' : string) :
  topic_match_at lit s' <> None -> topic_search lit (pre +:+ s') <> None.
Proof.
  intros H. induction pre as [|c pre IH]; [by apply topic_search_here|].
  change (topic_search lit (String c (pre +:+ s')) <> None). cbn [topic_search].
  destruct (topic_match_at lit (String c (pre +:+ s'))); done.
Qed.

Lemma topic_match_at_complete (lit w ws rest : string) :
  (w = "me" \/ w = "us") -> truthy ws = true -> all_ws ws = true -> dot_plus rest <> None ->
  topic_match_at lit (lit +:+ " " +:+ w +:+ ws +:+ rest) <> None.
Proof.
  intros Hw Ht Hws Hd. unfold topic_match_at.
  rewrite <- (append_assoc_s lit " "), drop_prefix_app.
  destruct ws as [|c ws']; [discriminate|].
  unfold all_ws in Hws. cbn [str_forall] in Hws. apply andb_prop in Hws as [Hc Hws].
  assert (Hp : ws_plus_dot_plus (String c ws' +:+ rest) <> None).
  { change (ws_plus_dot_plus (String c (ws' +:+ rest)) <> None). cbn [ws_plus_dot_plus].
    rewrite Hc. by apply ws_star_dot_plus_complete. }
  destruct Hw as [-> | ->].
  - rewrite drop_prefix_app. destruct (ws_plus_dot_plus _); done.
  - change (drop_prefix "me" ("us" +:+ String c ws' +:+ rest)) with (@None string).
    rewrite drop_prefix_app. destruct (ws_plus_dot_plus _); done.
Qed.

Lemma extract_topic_sound (text r : string) :
  extract_topic_from_utterance text = Some r ->
  exists lit pre s' g, (lit = "can you show" \/ lit = "show") /\
    py_strip (lower text) = pre +:+ s' /\ topic_decomp lit s' g /\ r = strip_punct g.
Proof.
  unfold extract_topic_from_utterance. destruct (negb (truthy text)); [discriminate|].
  destruct (topic_search "can you show" (py_strip (lower text))) as [g|] eqn:E1.
  - intros H. inversion H; subst r.
    destruct (topic_search_sound _ _ _ E1) as [pre [s' [Hs Hm]]].
    exists "can you show", pre, s', g. repeat split; auto. by apply topic_match_at_sound.
  - destruct (topic_search "show" (py_strip (lower text))) as [g|] eqn:E2; [|discriminate].
    intros H. inversion H; subst r.
    destruct (topic_search_sound _ _ _ E2) as [pre [s' [Hs Hm]]].
    exists "show", pre, s', g. repeat split; auto. by apply topic_match_at_sound.
Qed.

Lemma extract_topic_complete (text lit pre w ws rest : string) :
  (lit = "can you show" \/ lit = "show") -> (w = "me" \/ w = "us") ->
  py_strip (lower text) = pre +:+ lit +:+ " " +:+ w +:+ ws +:+ rest ->
  truthy ws = true -> all_ws ws = true -> dot_plus rest <> None ->
  extract_topic_from_utterance text <> None.
Proof.
  intros Hl Hw Hs Ht Hws Hd.
  pose proof (topic_search_complete lit pre _ (topic_match_at_complete lit w ws rest Hw Ht Hws Hd))
    as Hc.
  rewrite <- Hs in Hc.
  unfold extract_topic_from_utterance. destruct text as [|c text'].
  - exfalso. destruct pre; [|discriminate]. destruct Hl as [-> | ->]; discriminate.
  - cbn [truthy negb].
    destruct (topic_search "can you show" (py_strip (lower (String c text')))) eqn:E1; [done|].
    destruct Hl as [-> | ->]; [done|].
    destruct (topic_search "show" (py_strip (lower (String c text')))); done.
Qed.

Definition tab : ascii := ascii_of_nat 9.

(** C8 counterexample: trailing punctuation other than " ?.!," is kept
    (";"), a trailing tab before a "." is kept, the topic is lower-cased,
    and only the first line after the trigger is taken. *)
Lemma extract_topic_not_trimmed :
  extract_topic_from_utterance "show me volcanoes;" = Some "volcanoes;" /\
  extract_topic_from_utterance ("show me cats" +:+ String tab ".")
    = Some ("cats" +:+ String tab EmptyString) /\
  extract_topic_from_utterance "Show me Whale Belly Buttons" = Some "whale belly buttons" /\
  extract_topic_from_utterance ("show me cats" +:+ String newline "and dogs") = Some "cats".
Proof. repeat split; reflexivity. Qed.

(* ------------------------------------------------------------------ *)
(** ** Lower-case topics *)

Definition is_lower (s : string) : bool := str_forall (fun c => Ascii.eqb (lower_char c) c) s.

Lemma lower_char_idem (c : ascii) : lower_char (lower_char c) = lower_char c.
Proof. destruct c as [[] [] [] [] [] [] [] []]; vm_compute; reflexivity. Qed.

Lemma is_lower_lower (s : string) : is_lower (lower s) = true.
Proof.
  induction s as [|c s IH]; [done|]. unfold is_lower in *. cbn [lower str_forall].
  by rewrite lower_char_idem, Ascii.eqb_refl, IH.
Qed.

Lemma is_lower_eq (s : string) : is_lower s = true -> lower s = s.
Proof.
  induction s as [|c s IH]; [done|]. unfold is_lower in *. cbn [lower str_forall].
  intros H. apply andb_prop in H as [H1 H2]. apply Ascii.eqb_eq in H1. by rewrite H1, IH.
Qed.

Lemma str_forall_app_inv (p : ascii -> bool) (a b : string) :
  str_forall p (a +:+ b) = true -> str_forall p a = true /\ str_forall p b = true.
Proof.
  induction a as [|c a IH]; [done|].
  change (p c && str_forall p (a +:+ b) = true -> p c && str_forall p a = true /\ str_forall p b = true).
  intros H. apply andb_prop in H as [H1 H2]. destruct (IH H2). by rewrite H1.
Qed.

Lemma str_forall_lstrip (p q : ascii -> bool) (s : string) :
  str_forall p s = true -> str_forall p (lstrip_by q s) = true.
Proof.
  induction s as [|c s IH]; [done|]. cbn [lstrip_by str_forall].
  intros H. apply andb_prop in H as [H1 H2].
  destruct (q c); [by apply IH|]. cbn [str_forall]. by rewrite H1, H2.
Qed.

Lemma str_forall_rstrip (p q : ascii -> bool) (s : string) :
  str_forall p s = true -> str_forall p (rstrip_by q s) = true.
Proof.
  induction s as [|c s IH]; [done|]. cbn [rstrip_by str_forall].
  intros H. apply andb_prop in H as [H1 H2]. specialize (IH H2).
  destruct (rstrip_by q s) as [|d s'].
  - destruct (q c); [done|]. cbn [str_forall]. by rewrite H1.
  - cbn [str_forall] in *. by rewrite H1, IH.
Qed.

Lemma str_forall_strip (p q : ascii -> bool) (s : string) :
  str_forall p s = true -> str_forall p (strip_by q s) = true.
Proof. intros H. by apply str_forall_rstrip, str_forall_lstrip. Qed.

Lemma extract_topic_is_lower (text r : string) :
  extract_topic_from_utterance text = Some r -> lower r = r.
Proof.
  intros H. destruct (extract_topic_sound text r H)
    as [lit [pre [s' [g [_ [Hs [[w [ws [post [_ [Hs' _]]]]] ->]]]]]]].
  assert (Ht : is_lower (py_strip (lower text)) = true).
  { apply str_forall_strip, is_lower_lower. }
  rewrite Hs, Hs' in Ht. unfold is_lower in Ht.
  do 5 (apply str_forall_app_inv in Ht as [_ Ht]).
  apply str_forall_app_inv in Ht as [Hg _].
  apply is_lower_eq, str_forall_strip, Hg.
Qed.

Lemma show_me_echo_topic (sessions : gmap string session) (u text phone : string)
    (sms : sms_outcome) :
  is_show_request (py_strip text) = true ->
  (forall r, snd (show_me sessions u text phone sms) = Returned r ->
     spoken r = spoken_confirmation (priority_topic sessions u (py_strip text))) /\
  (truthy (py_strip phone) = true ->
   exists iu vu, snd (fst (show_me sessions u text phone sms))
     = [(py_strip phone, sms_body (priority_topic sessions u (py_strip text)) iu vu)]).
Proof.
  intros H. unfold show_me, priority_topic. rewrite H. cbn [negb].
  destruct (sessions !! u) as [v|]; cbn [get_or];
  destruct (extract_topic_from_utterance (py_strip text)) as [t|];
  try destruct (truthy t); try destruct (truthy (current_topic v));
  (split; [intros r Hr; destruct (truthy (py_strip phone)); [destruct sms|];
           cbn in Hr; inversion Hr; reflexivity
          |intros Hp; rewrite Hp; destruct sms; do 2 eexists; reflexivity]).
Qed.

(** C10 (as the code has it): a topic returned by
    [extract_topic_from_utterance] has no upper-case letter.  For a
    show-request, [/show_me] echoes one topic in the spoken confirmation
    and in the SMS body: the extracted topic when it is non-empty, which
    is then lower-case; otherwise the stored session topic when it is
    non-empty, else the fixed fallback, either one exactly as stored,
    with its casing unchanged. *)
Theorem extracted_topic_lowercase :
  (forall text r, extract_topic_from_utterance text = Some r -> lower r = r) /\
  (forall (sessions : gmap string session) u text phone sms,
     is_show_request (py_strip text) = true ->
     (forall r, snd (show_me sessions u text phone sms) = Returned r ->
        spoken r = spoken_confirmation (priority_topic sessions u (py_strip text))) /\
     (truthy (py_strip phone) = true ->
        exists iu vu, snd (fst (show_me sessions u text phone sms))
          = [(py_strip phone, sms_body (priority_topic sessions u (py_strip text)) iu vu)]) /\
     (forall t, extract_topic_from_utterance (py_strip text) = Some t -> truthy t = true ->
        priority_topic sessions u (py_strip text) = t /\ lower t = t) /\
     ((forall g, extract_topic_from_utterance (py_strip text) = Some g -> truthy g = false) ->
        priority_topic sessions u (py_strip text) =
        match sessions !! u with
        | Some v => if truthy (current_topic v) then current_topic v else fallback_topic
        | None => fallback_topic
        end)).
Proof.
  split; [apply extract_topic_is_lower|].
  intros sessions u text phone sms Hs.
  destruct (show_me_echo_topic sessions u text phone sms Hs) as [H1 H2].
  split; [exact H1|]. split; [exact H2|]. split.
  - intros t He Ht. split; [|by apply (extract_topic_is_lower (py_strip text))].
    unfold priority_topic. by rewrite He, Ht.
  - intros Hn. unfold priority_topic.
    destruct (extract_topic_from_utterance (py_strip text)) as [t|] eqn:E; [|done].
    by rewrite (Hn t eq_refl).
Qed.

Lemma extracted_topic_lowercase_witness :
  extract_topic_from_utterance "Can you show us Stars in Iceland?" = Some "stars in iceland" /\
  lower "stars in iceland" = "stars in iceland".
Proof.
  split; [reflexivity|].
  apply (proj1 extracted_topic_lowercase "Can you show us Stars in Iceland?"). reflexivity.
Defined.

Definition volcano_sessions : gmap string session :=
  <["kid1" := mk_session "Volcanoes" "volcano diagram" "volcano videos" "Why do volcanoes erupt?"]>
    no_sessions.

(** C10 counterexample: "show me!" with the stored topic "Volcanoes"
    echoes the topic with its upper-case letter. *)
Lemma show_me_echoes_stored_casing :
  snd (show_me volcano_sessions "kid1" "show me!" EmptyString SmsReturns)
    = Returned (mk_response (spoken_confirmation "Volcanoes")
                  (Some (google_images_url "kid friendly volcano diagram"))
                  (Some (youtube_url "volcano videos for kids"))) /\
  lower "Volcanoes" <> "Volcanoes".
Proof. split; [reflexivity|discriminate]. Qed.

(* ================================================================== *)
(** * Further properties of the code *)

(* ------------------------------------------------------------------ *)
(** ** [strip] *)

Definition lstripped (p : ascii -> bool) (x : string) : bool :=
  match x with EmptyString => true | String c _ => negb (p c) end.

Lemma lstrip_lstripped (p : ascii -> bool) (s : string) : lstripped p (lstrip_by p s) = true.
Proof.
  induction s as [|c s IH]; [done|]. cbn [lstrip_by].
  destruct (p c) eqn:E; [done|]. cbn. by rewrite E.
Qed.

Lemma lstrip_of_lstripped (p : ascii -> bool) (x : string) :
  lstripped p x = true -> lstrip_by p x = x.
Proof.
  destruct x as [|c x]; [done|]. cbn. intros H. apply negb_true_iff in H. by rewrite H.
Qed.

Lemma rstrip_keeps_lstripped (p : ascii -> bool) (x : string) :
  lstripped p x = true -> lstripped p (rstrip_by p x) = true.
Proof.
  destruct x as [|c x]; [done|]. cbn [lstripped]. intros H. apply negb_true_iff in H.
  cbn [rstrip_by]. destruct (rstrip_by p x); [rewrite H|]; cbn; by rewrite H.
Qed.

Lemma rstrip_cons (p : ascii -> bool) (c : ascii) (x : string) :
  rstrip_by p (String c x) =
  match rstrip_by p x with
  | EmptyString => if p c then EmptyString else String c EmptyString
  | r' => String c r'
  end.
Proof. reflexivity. Qed.

Lemma rstrip_idem (p : ascii -> bool) (s : string) :
  rstrip_by p (rstrip_by p s) = rstrip_by p s.
Proof.
  induction s as [|c s IH]; [done|]. rewrite (rstrip_cons p c s).
  destruct (rstrip_by p s) as [|d r] eqn:E.
  - destruct (p c) eqn:Hc; [done|]. rewrite rstrip_cons. cbn [rstrip_by]. by rewrite Hc.
  - rewrite rstrip_cons, IH. done.
Qed.

Lemma strip_idem (p : ascii -> bool) (s : string) : strip_by p (strip_by p s) = strip_by p s.
Proof.
  unfold strip_by. rewrite (lstrip_of_lstripped p (rstrip_by p (lstrip_by p s))).
  - apply rstrip_idem.
  - apply rstrip_keeps_lstripped, lstrip_lstripped.
Qed.

Lemma rstrip_app (p : ascii -> bool) (x y : string) :
  rstrip_by p y <> EmptyString -> rstrip_by p (x +:+ y) = x +:+ rstrip_by p y.
Proof.
  intros Hy. induction x as [|c x IH]; [done|].
  change (rstrip_by p (String c (x +:+ y)) = String c (x +:+ rstrip_by p y)).
  cbn [rstrip_by]. rewrite IH. destruct x as [|d x]; [|done].
  destruct (rstrip_by p y); done.
Qed.

Lemma strip_of_stripped_app (p : ascii -> bool) (x y : string) :
  lstripped p (x +:+ y) = true -> rstrip_by p y = y -> y <> EmptyString ->
  strip_by p (x +:+ y) = x +:+ y.
Proof.
  intros H1 H2 H3. unfold strip_by. rewrite lstrip_of_lstripped by done.
  rewrite rstrip_app; [by rewrite H2|by rewrite H2].
Qed.

(* ------------------------------------------------------------------ *)
(** ** The query builders *)

Lemma kid_marker_helper (q : string) :
  has_kid_marker (ensure_kid_friendly_image_query q) = true /\
  has_kid_marker (ensure_kid_friendly_video_query q) = true.
Proof.
  unfold ensure_kid_friendly_image_query, ensure_kid_friendly_video_query.
  set (q0 := py_strip q).
  destruct (truthy q0); cbn [negb]; [|split; reflexivity].
  unfold has_kid_marker. split.
  - destruct (contains "kid friendly" (lower q0)) eqn:E1;
      destruct (contains "for kids" (lower q0)) eqn:E2; cbn [negb andb];
      rewrite ?E1, ?E2, ?orb_true_r; try done.
    all: rewrite lower_app; apply orb_true_iff; right;
      change ("kid friendly " +:+ lower q0) with ("kid friendly" +:+ (" " +:+ lower q0));
      apply contains_prefix.
  - destruct (contains "kid friendly" (lower q0)) eqn:E1;
      destruct (contains "for kids" (lower q0)) eqn:E2; cbn [negb andb];
      rewrite ?E1, ?E2, ?orb_true_r; try done.
    all: rewrite lower_app; apply orb_true_iff; left;
      apply contains_app_r; change (lower " for kids") with (" " +:+ ("for kids" +:+ EmptyString));
      apply contains_app_r, contains_prefix.
Qed.

Lemma ensure_image_truthy (q : string) : truthy (ensure_kid_friendly_image_query q) = true.
Proof.
  unfold ensure_kid_friendly_image_query. destruct (truthy (py_strip q)) eqn:E; [|done].
  cbn [negb]. destruct (_ && _); [done|exact E].
Qed.

Lemma ensure_video_truthy (q : string) : truthy (ensure_kid_friendly_video_query q) = true.
Proof.
  unfold ensure_kid_friendly_video_query. destruct (truthy (py_strip q)) eqn:E; [|done].
  cbn [negb]. destruct (_ && _); [|exact E]. by destruct (py_strip q).
Qed.

Lemma contains_kid_friendly_prefix (q : string) :
  contains "kid friendly" (lower ("kid friendly " +:+ q)) = true.
Proof.
  rewrite lower_app. change (lower "kid friendly ") with ("kid friendly" +:+ " ").
  rewrite append_assoc_s. apply contains_prefix.
Qed.

Lemma contains_for_kids_suffix (q : string) :
  contains "for kids" (lower (q +:+ " for kids")) = true.
Proof.
  rewrite lower_app. apply contains_app_r.
  change (lower " for kids") with (" " +:+ ("for kids" +:+ EmptyString)).
  apply contains_app_r, contains_prefix.
Qed.

Lemma py_strip_rstripped (q : string) : rstrip_by py_isspace (py_strip q) = py_strip q.
Proof. apply rstrip_idem. Qed.

Lemma py_strip_lstripped (q : string) : lstripped py_isspace (py_strip q) = true.
Proof. apply rstrip_keeps_lstripped, lstrip_lstripped. Qed.

Lemma ensure_image_idem (q : string) :
  ensure_kid_friendly_image_query (ensure_kid_friendly_image_query q)
  = ensure_kid_friendly_image_query q.
Proof.
  unfold ensure_kid_friendly_image_query at 2 3.
  set (q0 := py_strip q).
  assert (Hs : py_strip q0 = q0) by apply strip_idem.
  destruct (truthy q0) eqn:Ht; cbn [negb]; [|reflexivity].
  destruct (negb (contains "kid friendly" (lower q0)) && negb (contains "for kids" (lower q0))) eqn:Hc.
  - unfold ensure_kid_friendly_image_query.
    assert (Hs2 : py_strip ("kid friendly " +:+ q0) = "kid friendly " +:+ q0).
    { apply strip_of_stripped_app; [reflexivity|apply py_strip_rstripped|by destruct q0]. }
    rewrite Hs2, contains_kid_friendly_prefix. reflexivity.
  - unfold ensure_kid_friendly_image_query. rewrite Hs, Ht, Hc. reflexivity.
Qed.

Lemma ensure_video_idem (q : string) :
  ensure_kid_friendly_video_query (ensure_kid_friendly_video_query q)
  = ensure_kid_friendly_video_query q.
Proof.
  unfold ensure_kid_friendly_video_query at 2 3.
  set (q0 := py_strip q).
  assert (Hs : py_strip q0 = q0) by apply strip_idem.
  destruct (truthy q0) eqn:Ht; cbn [negb]; [|reflexivity].
  destruct (negb (contains "for kids" (lower q0)) && negb (contains "kid friendly" (lower q0))) eqn:Hc.
  - unfold ensure_kid_friendly_video_query.
    assert (Hs2 : py_strip (q0 +:+ " for kids") = q0 +:+ " for kids").
    { unfold py_strip, strip_by.
      rewrite (lstrip_of_lstripped _ (q0 +:+ " for kids")).
      - rewrite rstrip_app by discriminate. reflexivity.
      - pose proof (py_strip_lstripped q) as Hl. fold q0 in Hl.
        destruct q0; [discriminate|exact Hl]. }
    rewrite Hs2, contains_for_kids_suffix. cbn [negb andb].
    by destruct q0.
  - unfold ensure_kid_friendly_video_query. rewrite Hs, Ht, Hc. reflexivity.
Qed.

(** The image query builder is idempotent: a query it has already
    produced passes through it unchanged. *)
Theorem ensure_image_query_idempotent (q : string) :
  ensure_kid_friendly_image_query (ensure_kid_friendly_image_query q)
  = ensure_kid_friendly_image_query q.
Proof. apply ensure_image_idem. Qed.

(** The video query builder is idempotent as well. *)
Theorem ensure_video_query_idempotent (q : string) :
  ensure_kid_friendly_video_query (ensure_kid_friendly_video_query q)
  = ensure_kid_friendly_video_query q.
Proof. apply ensure_video_idem. Qed.

(** The video link carries exactly one query parameter,
    [search_query=] followed by the percent-encoded query. *)
Theorem youtube_url_params (query : string) :
  query_params (youtube_url query) = [("search_query", quote_plus query)].
Proof.
  pose proof (quote_plus_no_sep query) as Hq.
  assert (Ha : str_forall (fun c => negb (Ascii.eqb c "&"%char)) (quote_plus query) = true).
  { revert Hq. apply str_forall_impl. intros c Hc. unfold not_amp_eq in Hc.
    by apply andb_prop in Hc as [Hc _]. }
  unfold query_params.
  change (after_char "?"%char (youtube_url query))
    with (Some ("search_query=" +:+ quote_plus query)).
  cbv iota beta.
  rewrite <- (append_empty_r (quote_plus query)), <- append_assoc_s.
  rewrite (split_on_app "&"%char _ EmptyString).
  - cbn [split_on prepend map]. rewrite append_assoc_s. reflexivity.
  - apply str_forall_app; [reflexivity|exact Ha].
Qed.

(* ------------------------------------------------------------------ *)
(** ** Case and surrounding punctuation *)

Lemma lower_idem (s : string) : lower (lower s) = lower s.
Proof. apply is_lower_eq, is_lower_lower. Qed.

Lemma truthy_lower (s : string) : truthy (lower s) = truthy s.
Proof. by destruct s. Qed.

(** Show-request detection and topic extraction ignore case: two texts
    equal up to case give the same answers. *)
Theorem show_detection_case_insensitive (s1 s2 : string) :
  lower s1 = lower s2 ->
  is_show_request s1 = is_show_request s2 /\
  extract_topic_from_utterance s1 = extract_topic_from_utterance s2.
Proof.
  intros H. unfold is_show_request, extract_topic_from_utterance.
  rewrite <- (truthy_lower s1), <- (truthy_lower s2), H. split; reflexivity.
Qed.

Lemma show_detection_case_insensitive_witness :
  lower "SHOW me Sharks" = lower "show ME sharks" /\
  extract_topic_from_utterance "SHOW me Sharks" = extract_topic_from_utterance "show ME sharks".
Proof.
  split; [reflexivity|].
  apply (proj2 (show_detection_case_insensitive "SHOW me Sharks" "show ME sharks" eq_refl)).
Defined.

Fixpoint last_ch (s : string) : option ascii :=
  match s with
  | EmptyString => None
  | String c EmptyString => Some c
  | String _ r => last_ch r
  end.

Lemma rstrip_last (p : ascii -> bool) (s : string) (c : ascii) :
  last_ch (rstrip_by p s) = Some c -> p c = false.
Proof.
  induction s as [|d s IH]; [discriminate|]. rewrite rstrip_cons.
  destruct (rstrip_by p s) as [|e r] eqn:E.
  - destruct (p d) eqn:Hd; [discriminate|]. cbn. intros H. by inversion H; subst.
  - intros H. apply IH. exact H.
Qed.

(** An extracted topic never starts or ends with a space or one of
    ["?.!,"]. *)
Theorem extracted_topic_trimmed (text r : string) :
  extract_topic_from_utterance text = Some r ->
  lstripped punct_set r = true /\ (forall c, last_ch r = Some c -> punct_set c = false).
Proof.
  intros H. destruct (extract_topic_sound text r H) as [lit [pre [s' [g [_ [_ [_ ->]]]]]]].
  split.
  - apply rstrip_keeps_lstripped, lstrip_lstripped.
  - intros c. apply rstrip_last.
Qed.

Lemma extracted_topic_trimmed_witness :
  extract_topic_from_utterance "show me ,sharks!?" = Some "sharks" /\
  lstripped punct_set "sharks" = true.
Proof.
  split; [reflexivity|].
  exact (proj1 (extracted_topic_trimmed "show me ,sharks!?" "sharks" eq_refl)).
Defined.

(* ------------------------------------------------------------------ *)
(** ** [parse_llm_output] *)

(** Case-insensitive equality of two characters ([re.IGNORECASE] on
    code points below 256). *)
Definition ci_eq (a b : ascii) : bool := Ascii.eqb (lower_char a) (lower_char b).

Fixpoint ci_drop_prefix (p s : string) : option string :=
  match p, s with
  | EmptyString, _ => Some s
  | String a p', String b s' => if ci_eq a b then ci_drop_prefix p' s' else None
  | String _ _, EmptyString => None
  end.

(** The lazy [(.*?)\]] with [re.DOTALL]: everything up to the first ["]"]. *)
Fixpoint take_until_close (s : string) : option string :=
  match s with
  | EmptyString => None
  | String c r =>
      if Ascii.eqb c "]"%char then Some EmptyString
      else match take_until_close r with
           | Some g => Some (String c g)
           | None => None
           end
  end.

Definition tag_group_at (tag s : string) : option string :=
  match ci_drop_prefix tag s with
  | Some r => take_until_close r
  | None => None
  end.

(** [re.search(r"\[TAG:(.*?)\]", t, re.IGNORECASE | re.DOTALL).group(1)]
    with [tag] the literal ["[TAG:"]. *)
Fixpoint tag_search (tag s : string) : option string :=
  match tag_group_at tag s with
  | Some g => Some g
  | None =>
      match s with
      | EmptyString => None
      | String _ r => tag_search tag r
      end
  end.

(** [s.find(p)] for a non-empty [p], [None] standing for [-1]. *)
Fixpoint find_index (p s : string) : option nat :=
  if prefixb p s then Some 0 else
  match s with
  | EmptyString => None
  | String _ r => option_map S (find_index p r)
  end.

(** [s[:n]] *)
Fixpoint take_n (n : nat) (s : string) : string :=
  match n, s with
  | O, _ => EmptyString
  | S _, EmptyString => EmptyString
  | S n', String c r => String c (take_n n' r)
  end.

Definition LLM_TAGS : list string := ["[TOPIC:"; "[IMAGE_QUERY:"; "[VIDEO_QUERY:"].

(** Lines 230-237: the least position of a tag (case-sensitive), or the
    length of the text. *)
Definition first_tag (t : string) : nat :=
  fold_left (fun acc tag =>
               match find_index tag t with
               | Some pos => Nat.min acc pos
               | None => acc
               end) LLM_TAGS (String.length t).

(** [parse_llm_output] (lines 211-241); the loop of lines 231-233 has no
    effect and is left out. *)
Definition parse_llm_output (raw : string)
    : string * option string * option string * option string :=
  let t := raw in
  let topic := option_map py_strip (tag_search "[TOPIC:" t) in
  let image_q := option_map py_strip (tag_search "[IMAGE_QUERY:" t) in
  let video_q := option_map py_strip (tag_search "[VIDEO_QUERY:" t) in
  let spoken := py_strip (take_n (first_tag t) t) in
  (spoken, topic, image_q, video_q).

Example parse_ex :
  parse_llm_output "Whales are mammals! [topic: whale belly buttons ] [IMAGE_QUERY:whale diagram]"
  = ("Whales are mammals! [topic: whale belly buttons ]", Some "whale belly buttons",
     Some "whale diagram", None).
Proof. reflexivity. Qed.

(* ------------------------------------------------------------------ *)
(** ** The [/answer] endpoint *)

(** How [call_gemini(text, forced_topic)] ends: it returns the model's
    text ([response.text or] the empty string), or it raises. *)
Inductive llm_outcome := LlmReturns (raw : string) | LlmRaises.

(** The JSON object returned by [/answer]; the error reply only has
    ["spoken"]. *)
Record answer_reply := mk_answer_reply {
  a_spoken : string;
  a_topic : option string;
  a_image_query : option string;
  a_video_query : option string
}.

(** The right single quotation mark U+2019 of the error reply, as its
    UTF-8 bytes (outside the Latin-1 string model, only ever output). *)
Definition right_quote : string :=
  String (ascii_of_nat 226) (String (ascii_of_nat 128) (String (ascii_of_nat 153) EmptyString)).

Definition trouble_reply : answer_reply :=
  mk_answer_reply ("I" +:+ right_quote +:+ "m having a little trouble thinking right now.")
    None None None.

(** [x or y] for an optional string [x] and a string [y]. *)
Definition py_or (x : option string) (y : string) : string :=
  match x with
  | Some v => if truthy v then v else y
  | None => y
  end.

(** [answer] (lines 248-293).  Inputs: the session store, [user_id], the
    raw ["text"] value (a missing one as the empty string) and how the
    model call ends.  Output: the session store afterwards and the reply.
    The [updated_at] timestamp is left out. *)
Definition answer (sessions : gmap string session) (user_id text_in : string)
    (llm : llm_outcome) : gmap string session * answer_reply :=
  let text := py_strip text_in in
  let forced_topic := extract_topic_from_utterance text in
  match llm with
  | LlmRaises => (sessions, trouble_reply)
  | LlmReturns raw =>
      let '(spoken, topic, image_q, video_q) := parse_llm_output raw in
      let topic := py_or topic (py_or forced_topic (take_n 50 text)) in
      let image_q := ensure_kid_friendly_image_query (py_or image_q topic) in
      let video_q := ensure_kid_friendly_video_query (py_or video_q (topic +:+ " videos")) in
      (<[user_id := mk_session topic image_q video_q text]> sessions,
       mk_answer_reply spoken (Some topic) (Some image_q) (Some video_q))
  end.

Example answer_ex :
  snd (answer no_sessions "kid1" " Why do whales have belly buttons? " (LlmReturns "They do!"))
  = mk_answer_reply "They do!" (Some "Why do whales have belly buttons?")
      (Some "kid friendly Why do whales have belly buttons?")
      (Some "Why do whales have belly buttons? videos for kids").
Proof. reflexivity. Qed.

(** [/answer] and the session store: when the model call raises, the
    store is unchanged and the reply is the fixed apology without topic
    or queries; when it returns, the caller's entry is overwritten with
    the topic and queries of the reply and the stripped question, both
    stored queries carry a kid-safety marker, and every other
    identifier's entry is unchanged. *)
Theorem answer_session_update (sessions : gmap string session) (u text raw : string) :
  answer sessions u text LlmRaises = (sessions, trouble_reply) /\
  exists sess, fst (answer sessions u text (LlmReturns raw)) !! u = Some sess /\
    a_topic (snd (answer sessions u text (LlmReturns raw))) = Some (current_topic sess) /\
    a_image_query (snd (answer sessions u text (LlmReturns raw))) = Some (image_query sess) /\
    a_video_query (snd (answer sessions u text (LlmReturns raw))) = Some (video_query sess) /\
    last_question sess = py_strip text /\
    has_kid_marker (image_query sess) = true /\ has_kid_marker (video_query sess) = true /\
    (forall v, v <> u -> fst (answer sessions u text (LlmReturns raw)) !! v = sessions !! v).
Proof.
  split; [reflexivity|]. unfold answer.
  destruct (parse_llm_output raw) as [[[sp tp] iq] vq]. cbv zeta. cbn [fst snd].
  eexists. split; [apply lookup_insert_eq|]. cbn [a_topic a_image_query a_video_query
    current_topic image_query video_query last_question].
  split; [done|]. split; [done|]. split; [done|]. split; [done|].
  split; [apply kid_marker_helper|]. split; [apply kid_marker_helper|].
  intros v Hv. by apply lookup_insert_ne.
Qed.

(** [/answer] followed by [/show_me]: after a successful [/answer] for
    [u], a show-request from [u] that names no topic of its own gets
    links for exactly the image and video queries [/answer] returned, and
    a confirmation that echoes the topic [/answer] returned (the fallback
    topic when that one is empty). *)
Theorem answer_then_show_me (sessions : gmap string session) (u text raw t2 phone : string) :
  is_show_request (py_strip t2) = true ->
  (forall g, extract_topic_from_utterance (py_strip t2) = Some g -> truthy g = false) ->
  exists topic iq vq,
    snd (answer sessions u text (LlmReturns raw)) =
      mk_answer_reply (fst (fst (fst (parse_llm_output raw)))) (Some topic) (Some iq) (Some vq) /\
    snd (show_me (fst (answer sessions u text (LlmReturns raw))) u t2 phone SmsReturns)
    = Returned (mk_response (spoken_confirmation (if truthy topic then topic else fallback_topic))
                  (Some (google_images_url iq)) (Some (youtube_url vq))).
Proof.
  intros Hs He. unfold answer.
  destruct (parse_llm_output raw) as [[[sp tp] iq] vq]. cbv zeta. cbn [fst snd].
  do 3 eexists. split; [reflexivity|].
  unfold show_me. rewrite Hs. cbn [negb]. rewrite lookup_insert_eq.
  cbn [get_or current_topic image_query video_query].
  rewrite ensure_image_truthy, ensure_video_truthy, ensure_image_idem, ensure_video_idem.
  destruct (extract_topic_from_utterance (py_strip t2)) as [g|] eqn:Eg.
  - rewrite (He g eq_refl). destruct (truthy (py_strip phone)); reflexivity.
  - destruct (truthy (py_strip phone)); reflexivity.
Qed.

Lemma answer_then_show_me_witness :
  is_show_request (py_strip "show me!") = true /\
  exists topic iq vq,
    snd (answer no_sessions "kid1" "Why do volcanoes erupt?"
           (LlmReturns "Hot rock! [TOPIC: volcanoes] [IMAGE_QUERY: volcano diagram]")) =
      mk_answer_reply (fst (fst (fst (parse_llm_output
        "Hot rock! [TOPIC: volcanoes] [IMAGE_QUERY: volcano diagram]"))))
        (Some topic) (Some iq) (Some vq) /\
    snd (show_me (fst (answer no_sessions "kid1" "Why do volcanoes erupt?"
           (LlmReturns "Hot rock! [TOPIC: volcanoes] [IMAGE_QUERY: volcano diagram]")))
           "kid1" "show me!" "+15551234567" SmsReturns)
    = Returned (mk_response (spoken_confirmation (if truthy topic then topic else fallback_topic))
                  (Some (google_images_url iq)) (Some (youtube_url vq))).
Proof.
  split; [reflexivity|].
  apply (answer_then_show_me no_sessions "kid1" "Why do volcanoes erupt?"
           "Hot rock! [TOPIC: volcanoes] [IMAGE_QUERY: volcano diagram]" "show me!" "+15551234567").
  - reflexivity.
  - intros g Hg. discriminate Hg.
Defined.

(** [/show_me] on a show-request: the store is unchanged, one SMS goes
    to the stripped parent phone when it is non-empty (none otherwise),
    and that SMS carries the same topic and the same two links as the
    reply. *)
Theorem show_me_sms_matches_reply (sessions : gmap string session) (u text phone : string) :
  is_show_request (py_strip text) = true ->
  exists topic iu vu,
    show_me sessions u text phone SmsReturns =
    (sessions,
     (if truthy (py_strip phone) then [(py_strip phone, sms_body topic iu vu)] else []),
     Returned (mk_response (spoken_confirmation topic) (Some iu) (Some vu))).
Proof.
  intros H. unfold show_me. rewrite H. cbn [negb].
  destruct (extract_topic_from_utterance (py_strip text)) as [t|]; try destruct (truthy t);
    (do 3 eexists; destruct (truthy (py_strip phone)); reflexivity).
Qed.

Lemma show_me_sms_matches_reply_witness :
  is_show_request (py_strip "show me sharks") = true /\
  exists topic iu vu,
    show_me no_sessions "kid1" "show me sharks" " +15551234567 " SmsReturns =
    (no_sessions,
     (if truthy (py_strip " +15551234567 ") then [(py_strip " +15551234567 ", sms_body topic iu vu)] else []),
     Returned (mk_response (spoken_confirmation topic) (Some iu) (Some vu))).
Proof.
  split; [reflexivity|].
  apply (show_me_sms_matches_reply no_sessions "kid1" "show me sharks" " +15551234567 ").
  reflexivity.
Defined.

(* ------------------------------------------------------------------ *)
(** ** Parsing the model output *)

Definition no_open (s : string) : bool := str_forall (fun c => negb (Ascii.eqb c "["%char)) s.
Definition no_close (s : string) : bool := str_forall (fun c => negb (Ascii.eqb c "]"%char)) s.

Lemma ci_eq_open (c : ascii) : ci_eq "["%char c = Ascii.eqb "["%char c.
Proof. destruct c as [[] [] [] [] [] [] [] []]; reflexivity. Qed.

Lemma tag_search_unfold (tag s : string) :
  tag_search tag s =
  match tag_group_at tag s with
  | Some g => Some g
  | None => match s with EmptyString => None | String _ r => tag_search tag r end
  end.
Proof. by destruct s. Qed.

Lemma tag_search_skip (tag' x y : string) :
  no_open x = true ->
  tag_search (String "[" tag') (x +:+ y) = tag_search (String "[" tag') y.
Proof.
  induction x as [|c x IH]; intros Hx; [done|].
  unfold no_open in Hx. cbn [str_forall] in Hx. apply andb_prop in Hx as [Hc Hx].
  change (tag_search (String "[" tag') (String c (x +:+ y)) = tag_search (String "[" tag') y).
  rewrite tag_search_unfold.
  assert (Hg : tag_group_at (String "[" tag') (String c (x +:+ y)) = None).
  { unfold tag_group_at. cbn [ci_drop_prefix]. rewrite ci_eq_open.
    apply negb_true_iff in Hc. rewrite Ascii.eqb_sym, Hc. reflexivity. }
  rewrite Hg. by apply IH.
Qed.

Lemma ci_drop_prefix_app (p z : string) : ci_drop_prefix p (p +:+ z) = Some z.
Proof.
  induction p as [|a p IH]; [done|].
  change (ci_drop_prefix (String a p) (String a (p +:+ z)) = Some z).
  cbn [ci_drop_prefix]. unfold ci_eq. by rewrite Ascii.eqb_refl.
Qed.

Lemma take_until_close_app (a r : string) :
  no_close a = true -> take_until_close (a +:+ String "]" r) = Some a.
Proof.
  induction a as [|c a IH]; intros Ha; [done|].
  unfold no_close in Ha. cbn [str_forall] in Ha. apply andb_prop in Ha as [Hc Ha].
  apply negb_true_iff in Hc.
  change (take_until_close (String c (a +:+ String "]" r)) = Some (String c a)).
  cbn [take_until_close]. rewrite Hc, IH by done. reflexivity.
Qed.

Lemma tag_search_here (tag a r : string) :
  no_close a = true -> tag_search tag (tag +:+ a +:+ String "]" r) = Some a.
Proof.
  intros Ha. rewrite tag_search_unfold. unfold tag_group_at.
  rewrite ci_drop_prefix_app, take_until_close_app by done. reflexivity.
Qed.

Lemma string_length_app (a b : string) :
  String.length (a +:+ b) = String.length a + String.length b.
Proof.
  induction a as [|c a IH]; [done|].
  change (S (String.length (a +:+ b)) = S (String.length a + String.length b)). by rewrite IH.
Qed.

Lemma find_index_skip (tag' x y : string) :
  no_open x = true ->
  find_index (String "[" tag') (x +:+ y) =
  option_map (Nat.add (String.length x)) (find_index (String "[" tag') y).
Proof.
  induction x as [|c x IH]; intros Hx.
  - change (EmptyString +:+ y) with y. by destruct (find_index (String "[" tag') y).
  - unfold no_open in Hx. cbn [str_forall] in Hx. apply andb_prop in Hx as [Hc Hx].
    apply negb_true_iff in Hc.
    change (find_index (String "[" tag') (String c (x +:+ y)) =
            option_map (Nat.add (S (String.length x))) (find_index (String "[" tag') y)).
    cbn [find_index prefixb]. rewrite Ascii.eqb_sym, Hc. cbn [andb].
    rewrite IH by done. by destruct (find_index _ y).
Qed.

Lemma take_n_app (a b : string) : take_n (String.length a) (a +:+ b) = a.
Proof.
  induction a as [|c a IH]; [by destruct b|].
  change (String c (take_n (String.length a) (a +:+ b)) = String c a). by rewrite IH.
Qed.


Lemma find_index_here (p s : string) : prefixb p s = true -> find_index p s = Some 0.
Proof. intros H. destruct s; cbn [find_index]; by rewrite H. Qed.

Lemma tag_search_step (tag : string) (c : ascii) (r : string) :
  tag_group_at tag (String c r) = None -> tag_search tag (String c r) = tag_search tag r.
Proof. intros H. rewrite tag_search_unfold, H. reflexivity. Qed.

Lemma no_open_piece (lit x y : string) :
  no_open lit = true -> no_open x = true -> no_open y = true ->
  no_open (lit +:+ x +:+ String "]" y) = true.
Proof.
  intros Hl Hx Hy. apply str_forall_app; [done|]. apply str_forall_app; [done|].
  cbn [str_forall]. exact Hy.
Qed.

(** Round trip of the tag format: a reply made of a spoken part, then
    [[TOPIC: a]], [[IMAGE_QUERY: b]] and [[VIDEO_QUERY: c]] in that order
    (with text free of ["["] between them and anything after the last one),
    parses back to the stripped spoken part and the stripped [a], [b] and
    [c], as long as none of these contains a bracket. *)
Theorem parse_llm_output_roundtrip (sp a m1 b m2 c e : string) :
  no_open sp = true -> no_open a = true -> no_close a = true -> no_open m1 = true ->
  no_open b = true -> no_close b = true -> no_open m2 = true ->
  no_open c = true -> no_close c = true ->
  parse_llm_output (sp +:+ "[TOPIC:" +:+ a +:+ String "]" (m1 +:+ "[IMAGE_QUERY:" +:+ b
                    +:+ String "]" (m2 +:+ "[VIDEO_QUERY:" +:+ c +:+ String "]" e)))
  = (py_strip sp, Some (py_strip a), Some (py_strip b), Some (py_strip c)).
Proof.
  intros Hsp Ha1 Ha2 Hm1 Hb1 Hb2 Hm2 Hc1 Hc2.
  set (rv := "[VIDEO_QUERY:" +:+ c +:+ String "]" e).
  set (ri := "[IMAGE_QUERY:" +:+ b +:+ String "]" (m2 +:+ rv)).
  set (rt := "[TOPIC:" +:+ a +:+ String "]" (m1 +:+ ri)).
  set (P1 := "TOPIC:" +:+ a +:+ String "]" m1).
  set (P2 := "IMAGE_QUERY:" +:+ b +:+ String "]" m2).
  assert (HP1 : no_open P1 = true) by (apply no_open_piece; done).
  assert (HP2 : no_open P2 = true) by (apply no_open_piece; done).
  assert (Ert : rt = String "[" (P1 +:+ ri)).
  { unfold rt, P1. rewrite !append_assoc_s. reflexivity. }
  assert (Eri : ri = String "[" (P2 +:+ rv)).
  { unfold ri, P2. rewrite !append_assoc_s. reflexivity. }
  assert (Htopic : tag_search "[TOPIC:" (sp +:+ rt) = Some a).
  { rewrite (tag_search_skip "TOPIC:") by done. apply tag_search_here, Ha2. }
  assert (Himage : tag_search "[IMAGE_QUERY:" (sp +:+ rt) = Some b).
  { rewrite (tag_search_skip "IMAGE_QUERY:") by done. rewrite Ert.
    rewrite tag_search_step by (unfold P1; reflexivity).
    rewrite (tag_search_skip "IMAGE_QUERY:") by done.
    apply tag_search_here, Hb2. }
  assert (Hvideo : tag_search "[VIDEO_QUERY:" (sp +:+ rt) = Some c).
  { rewrite (tag_search_skip "VIDEO_QUERY:") by done. rewrite Ert.
    rewrite tag_search_step by (unfold P1; reflexivity).
    rewrite (tag_search_skip "VIDEO_QUERY:") by done. rewrite Eri.
    rewrite tag_search_step by (unfold P2; reflexivity).
    rewrite (tag_search_skip "VIDEO_QUERY:") by done.
    apply tag_search_here, Hc2. }
  assert (Hfirst : first_tag (sp +:+ rt) = String.length sp).
  { unfold first_tag, LLM_TAGS. cbn [fold_left].
    rewrite (find_index_skip "TOPIC:"), (find_index_skip "IMAGE_QUERY:"),
      (find_index_skip "VIDEO_QUERY:") by done.
    assert (Ht : find_index "[TOPIC:" rt = Some 0) by (apply find_index_here, prefix_app).
    rewrite Ht. cbn [option_map].
    destruct (find_index "[IMAGE_QUERY:" rt), (find_index "[VIDEO_QUERY:" rt);
      cbn [option_map]; rewrite string_length_app; lia. }
  unfold parse_llm_output.
  rewrite Htopic, Himage, Hvideo, Hfirst, take_n_app. reflexivity.
Qed.

Lemma parse_llm_output_roundtrip_witness :
  parse_llm_output ("Whales are mammals! " +:+ "[TOPIC:" +:+ " whale " +:+ String "]" (" " +:+ "[IMAGE_QUERY:" +:+ "whale diagram"
                    +:+ String "]" (" " +:+ "[VIDEO_QUERY:" +:+ "whale song " +:+ String "]" " Bye")))
  = (py_strip "Whales are mammals! ", Some (py_strip " whale "), Some (py_strip "whale diagram"),
     Some (py_strip "whale song ")).
Proof. apply parse_llm_output_roundtrip; reflexivity. Defined.

(** A reply with no ["["] at all has no tag: the spoken part is the whole
    reply, stripped, and topic and queries are [None]. *)
Theorem parse_llm_output_untagged (raw : string) :
  no_open raw = true -> parse_llm_output raw = (py_strip raw, None, None, None).
Proof.
  intros H.
  assert (Hs : forall t', tag_search (String "[" t') raw = None).
  { intros t'. rewrite <- (append_empty_r raw), (tag_search_skip t') by done. by destruct t'. }
  assert (Hf : forall t', find_index (String "[" t') raw = None).
  { intros t'. rewrite <- (append_empty_r raw), (find_index_skip t') by done. by destruct t'. }
  assert (Hfirst : first_tag raw = String.length raw).
  { unfold first_tag, LLM_TAGS. cbn [fold_left]. rewrite !Hf. reflexivity. }
  unfold parse_llm_output. rewrite !Hs, Hfirst.
  assert (Ht : forall s, take_n (String.length s) s = s).
  { intros s. rewrite <- (append_empty_r s) at 2. apply take_n_app. }
  by rewrite Ht.
Qed.

Lemma parse_llm_output_untagged_witness :
  parse_llm_output " Whales can hold their breath for an hour. "
  = (py_strip " Whales can hold their breath for an hour. ", None, None, None).
Proof. apply parse_llm_output_untagged. reflexivity. Defined.

(* ------------------------------------------------------------------ *)
(** ** Which topic [extract_topic_from_utterance] returns *)

(** One occurrence of [LIT (me|us)] at the start of [s], followed by a
    whitespace run and a non-whitespace character [c]; [g] is the rest of
    the line from [c] on. *)
Definition trigger_match (lit s g : string) : Prop :=
  exists w ws c rest, (w = "me" \/ w = "us") /\
    s = lit +:+ " " +:+ w +:+ ws +:+ String c rest /\
    truthy ws = true /\ all_ws ws = true /\ py_isspace c = false /\
    g = take_line (String c rest).

(** The leftmost occurrence in [t]. *)
Definition first_trigger_match (lit t g : string) : Prop :=
  exists pre s, t = pre +:+ s /\ trigger_match lit s g /\
    forall pre2 s2 g2, t = pre2 +:+ s2 -> String.length pre2 < String.length pre ->
      ~ trigger_match lit s2 g2.

Definition no_trigger_match (lit t : string) : Prop :=
  forall pre s g, t = pre +:+ s -> ~ trigger_match lit s g.

Definition clean_end (s : string) : Prop :=
  forall c, last_ch s = Some c -> py_isspace c = false.

Lemma clean_end_strip (s : string) : clean_end (py_strip s).
Proof. intros c. apply rstrip_last. Qed.

Lemma last_ch_app (pre s : string) : s <> EmptyString -> last_ch (pre +:+ s) = last_ch s.
Proof.
  intros Hs. induction pre as [|d pre IH]; [done|].
  change (last_ch (String d (pre +:+ s)) = last_ch s). rewrite <- IH.
  cbn [last_ch]. destruct (pre +:+ s) eqn:E; [|done].
  destruct pre; [done|discriminate].
Qed.

Lemma clean_end_suffix (pre s : string) : clean_end (pre +:+ s) -> clean_end s.
Proof.
  intros H c Hc. apply H. rewrite last_ch_app; [done|]. by intros ->.
Qed.

Lemma last_ch_all_ws (x : string) :
  all_ws x = true -> x <> EmptyString -> exists c, last_ch x = Some c /\ py_isspace c = true.
Proof.
  induction x as [|d x IH]; [done|]. intros Hx _.
  unfold all_ws in Hx. cbn [str_forall] in Hx. apply andb_prop in Hx as [Hd Hx].
  destruct x as [|e x'].
  - by exists d.
  - destruct (IH Hx) as [c [Hc1 Hc2]]; [done|]. exists c. split; [|done].
    change (last_ch (String e x') = Some c). exact Hc1.
Qed.

Lemma ws_star_greedy (ws : string) (c : ascii) (rest : string) :
  all_ws ws = true -> py_isspace c = false ->
  ws_star_dot_plus (ws +:+ String c rest) = Some (take_line (String c rest)).
Proof.
  intros Hws Hc. induction ws as [|d ws IH].
  - change (ws_star_dot_plus (String c rest) = Some (take_line (String c rest))).
    cbn [ws_star_dot_plus]. rewrite Hc. unfold dot_plus.
    destruct (Ascii.eqb c newline) eqn:E; [|done].
    apply Ascii.eqb_eq in E. subst c. discriminate.
  - unfold all_ws in Hws. cbn [str_forall] in Hws. apply andb_prop in Hws as [Hd Hws].
    change (ws_star_dot_plus (String d (ws +:+ String c rest)) = Some (take_line (String c rest))).
    cbn [ws_star_dot_plus]. rewrite Hd, IH by done. reflexivity.
Qed.

Lemma ws_run_split (r : string) :
  all_ws r = true \/
  exists ws c rest, r = ws +:+ String c rest /\ all_ws ws = true /\ py_isspace c = false.
Proof.
  induction r as [|d r IH]; [by left|].
  destruct (py_isspace d) eqn:Hd.
  - destruct IH as [IH | [ws [c [rest [-> [Hws Hc]]]]]].
    + left. unfold all_ws in *. cbn [str_forall]. by rewrite Hd, IH.
    + right. exists (String d ws), c, rest. split; [done|]. split; [|done].
      unfold all_ws in *. cbn [str_forall]. by rewrite Hd, Hws.
  - right. by exists EmptyString, d, r.
Qed.

Lemma ws_plus_greedy (lit w r' : string) (g : string) :
  clean_end (lit +:+ " " +:+ w +:+ r') ->
  ws_plus_dot_plus r' = Some g ->
  exists ws c rest, r' = ws +:+ String c rest /\ truthy ws = true /\ all_ws ws = true /\
    py_isspace c = false /\ g = take_line (String c rest).
Proof.
  intros Hcl H. unfold ws_plus_dot_plus in H.
  destruct r' as [|d r'']; [discriminate|].
  destruct (py_isspace d) eqn:Hd; [|discriminate].
  destruct (ws_run_split r'') as [Hall | [ws [c [rest [-> [Hws Hc]]]]]].
  - exfalso.
    destruct (last_ch_all_ws (String d r'')) as [c [Hc1 Hc2]]; [|done|].
    { unfold all_ws in *. cbn [str_forall]. by rewrite Hd, Hall. }
    assert (Hx := Hcl c). rewrite !last_ch_app in Hx by (try done; by destruct w; destruct lit).
    rewrite Hx in Hc2; [discriminate|exact Hc1].
  - rewrite ws_star_greedy in H by done. inversion H; subst g.
    exists (String d ws), c, rest. split; [done|]. split; [done|].
    unfold all_ws in *. cbn [str_forall]. by rewrite Hd, Hws.
Qed.

Lemma topic_match_at_iff (lit s g : string) :
  clean_end s -> topic_match_at lit s = Some g <-> trigger_match lit s g.
Proof.
  intros Hcl. split.
  - unfold topic_match_at.
    destruct (drop_prefix (lit +:+ " ") s) as [r|] eqn:E1; [|discriminate].
    apply drop_prefix_some in E1. rewrite append_assoc_s in E1.
    assert (Hw : forall w r', r = w +:+ r' -> (w = "me" \/ w = "us") ->
              ws_plus_dot_plus r' = Some g -> trigger_match lit s g).
    { intros w r' -> Hwo H. subst s.
      destruct (ws_plus_greedy lit w r' g Hcl H) as [ws [c [rest [-> Hrest]]]].
      by exists w, ws, c, rest. }
    destruct (drop_prefix "me" r) as [r'|] eqn:E2.
    + destruct (ws_plus_dot_plus r') as [g'|] eqn:E3.
      * intros H. inversion H; subst g'. apply (Hw "me" r'); [by apply drop_prefix_some|by left|done].
      * destruct (drop_prefix "us" r) as [r''|] eqn:E4; [|discriminate].
        intros H. apply (Hw "us" r''); [by apply drop_prefix_some|by right|done].
    + destruct (drop_prefix "us" r) as [r''|] eqn:E4; [|discriminate].
      intros H. apply (Hw "us" r''); [by apply drop_prefix_some|by right|done].
  - intros [w [ws [c [rest [Hw [-> [Ht [Hws [Hc ->]]]]]]]]].
    unfold topic_match_at.
    rewrite <- (append_assoc_s lit " "), drop_prefix_app.
    destruct ws as [|d ws']; [discriminate|].
    unfold all_ws in Hws. cbn [str_forall] in Hws. apply andb_prop in Hws as [Hd Hws].
    assert (Hp : ws_plus_dot_plus (String d ws' +:+ String c rest) = Some (take_line (String c rest))).
    { change (ws_plus_dot_plus (String d (ws' +:+ String c rest)) = Some (take_line (String c rest))).
      cbn [ws_plus_dot_plus]. rewrite Hd. by apply ws_star_greedy. }
    destruct Hw as [-> | ->].
    + rewrite drop_prefix_app, Hp. reflexivity.
    + change (drop_prefix "me" ("us" +:+ String d ws' +:+ String c rest)) with (@None string).
      rewrite drop_prefix_app, Hp. reflexivity.
Qed.

Lemma topic_search_eq (lit s : string) :
  topic_search lit s =
  match topic_match_at lit s with
  | Some g => Some g
  | None => match s with EmptyString => None | String _ r => topic_search lit r end
  end.
Proof. by destruct s. Qed.

Lemma topic_search_first (lit t g : string) :
  topic_search lit t = Some g <->
  exists pre s, t = pre +:+ s /\ topic_match_at lit s = Some g /\
    forall pre2 s2, t = pre2 +:+ s2 -> String.length pre2 < String.length pre ->
      topic_match_at lit s2 = None.
Proof.
  split.
  - induction t as [|c t IH]; rewrite topic_search_eq.
    + destruct (topic_match_at lit EmptyString) eqn:E; [|discriminate].
      intros H. inversion H; subst. exists EmptyString, EmptyString.
      split; [done|]. split; [done|]. cbn. lia.
    + destruct (topic_match_at lit (String c t)) eqn:E.
      * intros H. inversion H; subst. exists EmptyString, (String c t).
        split; [done|]. split; [done|]. cbn. lia.
      * intros H. destruct (IH H) as [pre [s [-> [Hm Hmin]]]].
        exists (String c pre), s. split; [done|]. split; [done|].
        intros [|d pre2] s2 Ht Hl.
        -- change (EmptyString +:+ s2) with s2 in Ht. by rewrite <- Ht.
        -- inversion Ht; subst. apply (Hmin pre2); [done|]. cbn in Hl. lia.
  - intros [pre [s [-> [Hm Hmin]]]]. induction pre as [|c pre IH].
    + change (EmptyString +:+ s) with s. rewrite topic_search_eq. by rewrite Hm.
    + change (topic_search lit (String c (pre +:+ s)) = Some g).
      rewrite topic_search_eq.
      rewrite (Hmin EmptyString (String c (pre +:+ s))) by (done || (cbn; lia)).
      apply IH. intros pre2 s2 Ht Hl. apply (Hmin (String c pre2)).
      * change (String c (pre +:+ s) = String c (pre2 +:+ s2)). by rewrite Ht.
      * cbn. lia.
Qed.

Lemma topic_search_none (lit t : string) :
  topic_search lit t = None <->
  forall pre s, t = pre +:+ s -> topic_match_at lit s = None.
Proof.
  split.
  - induction t as [|c t IH]; rewrite topic_search_eq.
    + destruct (topic_match_at lit EmptyString) eqn:E; [discriminate|].
      intros _ [|d pre] s Ht; [change (EmptyString +:+ s) with s in Ht; by rewrite <- Ht|discriminate].
    + destruct (topic_match_at lit (String c t)) eqn:E; [discriminate|].
      intros H [|d pre] s Ht; [change (EmptyString +:+ s) with s in Ht; by rewrite <- Ht|].
      inversion Ht; subst. by apply (IH H pre).
  - induction t as [|c t IH]; intros H; rewrite topic_search_eq.
    + by rewrite (H EmptyString EmptyString).
    + rewrite (H EmptyString (String c t)) by done. apply IH.
      intros pre s ->. by apply (H (String c pre)).
Qed.

Lemma first_trigger_match_iff (lit t g : string) :
  clean_end t -> topic_search lit t = Some g <-> first_trigger_match lit t g.
Proof.
  intros Hcl. rewrite topic_search_first. split.
  - intros [pre [s [-> [Hm Hmin]]]]. exists pre, s. split; [done|]. split.
    + apply topic_match_at_iff; [by apply clean_end_suffix in Hcl|done].
    + intros pre2 s2 g2 Ht Hl Htm. apply topic_match_at_iff in Htm.
      * by rewrite (Hmin pre2 s2 Ht Hl) in Htm.
      * rewrite Ht in Hcl. by apply clean_end_suffix in Hcl.
  - intros [pre [s [-> [Hm Hmin]]]]. exists pre, s. split; [done|]. split.
    + apply topic_match_at_iff; [by apply clean_end_suffix in Hcl|done].
    + intros pre2 s2 Ht Hl. destruct (topic_match_at lit s2) as [g2|] eqn:E; [|done].
      exfalso. apply (Hmin pre2 s2 g2 Ht Hl). apply topic_match_at_iff; [|done].
      rewrite Ht in Hcl. by apply clean_end_suffix in Hcl.
Qed.

Lemma no_trigger_match_iff (lit t : string) :
  clean_end t -> topic_search lit t = None <-> no_trigger_match lit t.
Proof.
  intros Hcl. rewrite topic_search_none. split.
  - intros H pre s g Ht Htm. apply topic_match_at_iff in Htm.
    + by rewrite (H pre s Ht) in Htm.
    + rewrite Ht in Hcl. by apply clean_end_suffix in Hcl.
  - intros H pre s Ht. destruct (topic_match_at lit s) as [g|] eqn:E; [|done].
    exfalso. apply (H pre s g Ht). apply topic_match_at_iff; [|done].
    rewrite Ht in Hcl. by apply clean_end_suffix in Hcl.
Qed.

(** C8 (as the code has it): let [t] be the text lower-cased and
    stripped.  A topic is returned exactly when the text is non-empty and
    [t] contains ["can you show"] or ["show"], then [" me"] or [" us"],
    then a whitespace run (which may span lines) and a non-whitespace
    character.  The leftmost occurrence of the first pattern is used when
    there is one, otherwise the leftmost occurrence of the second; the
    topic is the rest of that line from the first non-whitespace
    character on, with leading and trailing characters among " ?.!,"
    removed and nothing else trimmed.  Otherwise the result is [None]. *)
Theorem extract_topic_spec (text : string) :
  (forall r, extract_topic_from_utterance text = Some r <->
     truthy text = true /\
     ((exists g, first_trigger_match "can you show" (py_strip (lower text)) g /\
                 r = strip_punct g) \/
      (no_trigger_match "can you show" (py_strip (lower text)) /\
       exists g, first_trigger_match "show" (py_strip (lower text)) g /\ r = strip_punct g))) /\
  (extract_topic_from_utterance text = None <->
     truthy text = false \/
     (no_trigger_match "can you show" (py_strip (lower text)) /\
      no_trigger_match "show" (py_strip (lower text)))).
Proof.
  pose proof (clean_end_strip (lower text)) as Hcl.
  unfold extract_topic_from_utterance.
  destruct (truthy text); cbn [negb].
  2:{ split; [|tauto]. intros r. split; [discriminate|]. intros [H _]; discriminate. }
  destruct (topic_search "can you show" (py_strip (lower text))) as [g1|] eqn:E1.
  - apply (first_trigger_match_iff _ _ _ Hcl) in E1.
    split.
    + intros r. split.
      * intros H. inversion H; subst r. split; [done|]. left. by exists g1.
      * intros [_ [[g [Hg ->]] | [Hn _]]].
        -- apply first_trigger_match_iff in Hg, E1; [|done|done]. rewrite E1 in Hg.
           by inversion Hg.
        -- exfalso. apply (no_trigger_match_iff _ _ Hcl) in Hn.
           apply first_trigger_match_iff in E1; [|done]. by rewrite E1 in Hn.
    + split; [discriminate|]. intros [H | [Hn _]]; [discriminate|].
      apply (no_trigger_match_iff _ _ Hcl) in Hn.
      apply first_trigger_match_iff in E1; [|done]. by rewrite E1 in Hn.
  - pose proof E1 as N1. apply (no_trigger_match_iff _ _ Hcl) in N1.
    destruct (topic_search "show" (py_strip (lower text))) as [g2|] eqn:E2.
    + split.
      * intros r. split.
        -- intros H. inversion H; subst r. split; [done|]. right. split; [done|].
           exists g2. split; [|done]. by apply first_trigger_match_iff.
        -- intros [_ [[g [Hg ->]] | [_ [g [Hg ->]]]]].
           ++ apply first_trigger_match_iff in Hg; [|done]. by rewrite E1 in Hg.
           ++ apply first_trigger_match_iff in Hg; [|done]. rewrite E2 in Hg.
              by inversion Hg.
      * split; [discriminate|]. intros [H | [_ Hn]]; [discriminate|].
        apply (no_trigger_match_iff _ _ Hcl) in Hn. by rewrite E2 in Hn.
    + split.
      * intros r. split; [discriminate|].
        intros [_ [[g [Hg _]] | [_ [g [Hg _]]]]];
          apply first_trigger_match_iff in Hg; try done; congruence.
      * split; [|done]. intros _. right. split; [done|].
        by apply (no_trigger_match_iff _ _ Hcl).
Qed.

Lemma extract_topic_spec_witness :
  extract_topic_from_utterance "Show me a, can you show us b!" = Some "b".
Proof.
  apply (proj2 (proj1 (extract_topic_spec "Show me a, can you show us b!") "b")).
  split; [reflexivity|]. left. exists "b!". split; [|reflexivity].
  apply first_trigger_match_iff; [apply clean_end_strip|]. reflexivity.
Defined.
